(** * Monthly carbon footprint tracker: calculators and streak tracker

    A shallow embedding of [carbon_footprint_app/functions.py].

    - [Calculator]: the footprint and savings formulas.  Python numbers are
      embedded as IEEE binary64 values (Rocq's primitive floats), with the
      operations and the rounding of Python's [float].  The form of
      [app.py] supplies Python ints (bounded by the form to the integers
      that binary64 holds exactly); every product of the source multiplies
      them by a float literal, for which Python first converts them to
      binary64, so an int is identified with the float of the same value.
    - [Streak]: the persisted log (the JSON file), its loader and writer,
      and the two streak computations over calendar dates.  Exceptions
      are explicit: a computation returns a value or raises.
    - [App]: the streak handlers of [app.py], [log_action] and the streak
      section of the page, with the clock's date as an argument.
    - [Style]: [get_base64_image] and the background that
      [apply_custom_style] chooses from its result. *)

From Stdlib Require Import ZArith Floats String Ascii List Sorted Lia.
From stdpp Require Import gmap strings list.

Set Warnings "-inexact-float,-register-all".

(* ===================================================================== *)
(** ** Footprint and savings calculators                                  *)
(* ===================================================================== *)

Module Calculator.

#[local] Open Scope float_scope.

(** [EMISSION_FACTORS] *)
Definition electricity_kwh_co2 : float := 0.40.
Definition car_km_co2 : float := 0.17.
Definition flight_km_co2 : float := 0.15.
Definition waste_per_person_co2 : float := 10.

(** [FINANCIAL_FACTORS] *)
Definition electricity_cost_per_kwh_inr : float := 8.0.
Definition car_cost_per_km_inr : float := 8.0.
Definition diet_savings_vegetarian_inr : float := 1500.
Definition diet_savings_vegan_inr : float := 2500.
Definition benchmark_kwh : float := 100.
Definition benchmark_car_km : float := 100.

(** Python's [max(a, b)]: the first argument is kept unless the second is
    strictly greater (so [max(0, nan)] is [0]). *)
Definition py_max (a b : float) : float := if a <? b then b else a.

Definition calculate_energy_footprint (kwh_per_month : float) : float :=
  kwh_per_month * electricity_kwh_co2.

Definition calculate_travel_footprint (car_km_month flight_km_year : float) : float :=
  let car_co2 := car_km_month * car_km_co2 in
  let flight_co2 := (flight_km_year * flight_km_co2) / 12 in
  car_co2 + flight_co2.

Definition diet_factor (diet_type : string) : float :=
  if String.eqb diet_type "vegan" then 0.5
  else if String.eqb diet_type "vegetarian" then 1.2
  else if String.eqb diet_type "omniverous" then 2.5
  else 2.0.

Definition calculate_diet_footprint (diet_type : string) (meals_per_month : float) : float :=
  meals_per_month * diet_factor diet_type.

(** The default argument [meals_per_month=90]. *)
Definition meals_per_month_default : float := 90.

(** The dictionary returned by [calculate_total_footprint] has a fixed set
    of keys; it is a record with one field per key. *)
Record footprint := {
  Total : float;
  Energy : float;
  Travel : float;
  Diet : float;
  Waste : float
}.

Definition calculate_total_footprint (energy travel diet waste_reduction_factor : float)
  : footprint :=
  let waste_co2 := waste_per_person_co2 * waste_reduction_factor in
  let total := energy + travel + diet + waste_co2 in
  {| Total := total; Energy := energy; Travel := travel; Diet := diet;
     Waste := waste_co2 |}.

Record savings := {
  TotalSavings : float;
  EnergySavings : float;
  TravelSavings : float;
  DietSavings : float
}.

Definition calculate_financial_savings (kwh car_km : float) (diet_type : string)
  : savings :=
  let user_energy_cost := kwh * electricity_cost_per_kwh_inr in
  let benchmark_energy_cost := benchmark_kwh * electricity_cost_per_kwh_inr in
  let energy_saving := py_max 0 (user_energy_cost - benchmark_energy_cost) in
  let user_travel_cost := car_km * car_cost_per_km_inr in
  let benchmark_travel_cost := benchmark_car_km * car_cost_per_km_inr in
  let travel_saving := py_max 0 (user_travel_cost - benchmark_travel_cost) in
  let diet_saving :=
    if String.eqb diet_type "vegetarian" then diet_savings_vegetarian_inr
    else if String.eqb diet_type "vegan" then diet_savings_vegan_inr
    else 0 in
  let total_potential_savings := energy_saving + travel_saving + diet_saving in
  {| TotalSavings := total_potential_savings; EnergySavings := energy_saving;
     TravelSavings := travel_saving; DietSavings := diet_saving |}.

(** [handle_calculation] of [app.py], the only caller: the three component
    footprints, the waste factor chosen by the recycling flag, and the two
    records. *)
Definition handle_calculation (kwh car_km flight_km : float) (diet : string)
    (recycle : bool) : footprint * savings :=
  let energy_co2 := calculate_energy_footprint kwh in
  let travel_co2 := calculate_travel_footprint car_km flight_km in
  let diet_co2 := calculate_diet_footprint diet meals_per_month_default in
  let waste_factor := if recycle then 0.8 else 1.0 in
  (calculate_total_footprint energy_co2 travel_co2 diet_co2 waste_factor,
   calculate_financial_savings kwh car_km diet).

(** A diet string that is none of the three literals of the source. *)
Definition unrecognized (diet_type : string) : Prop :=
  diet_type <> "vegan"%string /\ diet_type <> "vegetarian"%string
  /\ diet_type <> "omniverous"%string.

(** The footprints of 10 kWh, 30 km by car and no flight, with a vegan
    diet: inputs that the form of [app.py] can submit. *)
Definition sample_energy : float := calculate_energy_footprint 10.
Definition sample_travel : float := calculate_travel_footprint 30 0.
Definition sample_diet : float := calculate_diet_footprint "vegan" meals_per_month_default.

End Calculator.

(* ===================================================================== *)
(** ** Streak tracker                                                     *)
(* ===================================================================== *)

Module Streak.

#[local] Open Scope Z_scope.

(** *** Exceptions and fallible computations *)

(** The exceptions that the modelled statements can raise. *)
Inductive exn :=
  | FileNotFoundError | UnicodeDecodeError | JSONDecodeError | KeyError
  | AttributeError | TypeError | ValueError | OverflowError.

Inductive result (A : Type) :=
  | Ok (a : A)
  | Raise (e : exn).
Arguments Ok {A} a.
Arguments Raise {A} e.

Definition bind {A B} (c : result A) (k : A -> result B) : result B :=
  match c with
  | Ok a => k a
  | Raise e => Raise e
  end.

Notation "'let!' x ':=' c 'in' k" := (bind c (fun x => k))
  (at level 10, x name, c at level 100, k at level 200).

Fixpoint mapM {A B} (f : A -> result B) (l : list A) : result (list B) :=
  match l with
  | [] => Ok []
  | x :: l' => let! y := f x in let! ys := mapM f l' in Ok (y :: ys)
  end.

(** [try: body except (caught): handler] *)
Definition try_except {A} (body : result A) (caught : exn -> bool)
    (handler : result A) : result A :=
  match body with
  | Ok a => Ok a
  | Raise e => if caught e then handler else Raise e
  end.

(** *** Python values read from and written to the log file *)

(** What [json.load] builds.  Numerals with a fraction or an exponent
    (Python floats) are not represented, nor are the constants [NaN] and
    [Infinity] that [json.load] also reads as floats: a store is a file
    without them.  Strings are byte strings, one character per byte. *)
Inductive json :=
  | JNull
  | JBool (b : bool)
  | JInt (n : Z)
  | JStr (s : string)
  | JList (l : list json)
  | JDict (m : gmap string json).

(** The hashable values among them: the only ones a [set] can hold. *)
Inductive hashable :=
  | HNone
  | HBool (b : bool)
  | HInt (n : Z)
  | HStr (s : string).

Definition to_hashable (v : json) : result hashable :=
  match v with
  | JNull => Ok HNone
  | JBool b => Ok (HBool b)
  | JInt n => Ok (HInt n)
  | JStr s => Ok (HStr s)
  | JList _ | JDict _ => Raise TypeError
  end.

Definition of_hashable (h : hashable) : json :=
  match h with
  | HNone => JNull
  | HBool b => JBool b
  | HInt n => JInt n
  | HStr s => JStr s
  end.

(** Python compares [bool] and [int] by value ([True == 1]); a string only
    equals a string and [None] only [None]. *)
Inductive key :=
  | KNone
  | KNum (n : Z)
  | KStr (s : string).

Definition key_of (h : hashable) : key :=
  match h with
  | HNone => KNone
  | HBool b => KNum (if b then 1 else 0)
  | HInt n => KNum n
  | HStr s => KStr s
  end.

(** [a == b] *)
Definition py_eq (a b : hashable) : bool :=
  match key_of a, key_of b with
  | KNone, KNone => true
  | KNum x, KNum y => x =? y
  | KStr s, KStr t => String.eqb s t
  | _, _ => false
  end.

(** [a < b]: numbers by value, strings by code point; any other pairing is
    a [TypeError]. *)
Definition py_lt (a b : hashable) : result bool :=
  match key_of a, key_of b with
  | KNum x, KNum y => Ok (x <? y)
  | KStr s, KStr t => Ok (String.ltb s t)
  | _, _ => Raise TypeError
  end.

(** *** [set] and [sorted] *)

Section Containers.
Context {A : Type}.
Variable eqb : A -> A -> bool.
Variable ltb : A -> A -> result bool.

(** [set(l)], as the list of its elements in insertion order: of several
    equal elements the first one is kept.  The iteration order of a
    Python set is unspecified; the source sorts the set before using it. *)
Fixpoint py_set (l : list A) : list A :=
  match l with
  | [] => []
  | x :: l' => x :: List.filter (fun y => negb (eqb x y)) (py_set l')
  end.

(** [x in l] *)
Definition py_in (x : A) (l : list A) : bool := List.existsb (eqb x) l.

(** [sorted(l)] and [l.sort()]: a stable sort that only uses [<] and
    lets the exception of a comparison through. *)
Fixpoint insort (x : A) (l : list A) : result (list A) :=
  match l with
  | [] => Ok [x]
  | y :: l' =>
      let! below := ltb y x in
      if below then let! r := insort x l' in Ok (y :: r)
      else Ok (x :: y :: l')
  end.

Fixpoint py_sorted (l : list A) : result (list A) :=
  match l with
  | [] => Ok []
  | x :: l' => let! s := py_sorted l' in insort x s
  end.
(** Strictly ascending for [<]: each element is below the next one. *)
Definition ascending : list A -> Prop := Sorted (fun a b => ltb a b = Ok true).
End Containers.

(** *** Calendar dates *)

(** A [datetime.date] is represented by its proleptic Gregorian ordinal
    ([date.toordinal()]): 0001-01-01 is day 1 and 9999-12-31 is day
    3652059.  Equality, order and hashing of dates are those of the
    ordinals, and [(a - b).days] is their difference. *)
Definition date := Z.
Definition date_min : date := 1.
Definition date_max : date := 3652059.

Definition is_leap (y : Z) : bool :=
  (y mod 4 =? 0) && (negb (y mod 100 =? 0) || (y mod 400 =? 0)).

Definition days_before_year (year : Z) : Z :=
  let y := year - 1 in
  y * 365 + y / 4 - y / 100 + y / 400.

Definition days_in_month (year month : Z) : Z :=
  match month with
  | 2 => if is_leap year then 29 else 28
  | 4 | 6 | 9 | 11 => 30
  | _ => 31
  end.

Definition days_before_month (year month : Z) : Z :=
  match month with
  | 1 => 0 | 2 => 31 | 3 => 59 | 4 => 90 | 5 => 120 | 6 => 151
  | 7 => 181 | 8 => 212 | 9 => 243 | 10 => 273 | 11 => 304 | _ => 334
  end + (if (2 <? month) && is_leap year then 1 else 0).

Definition ymd2ord (year month day : Z) : date :=
  days_before_year year + days_before_month year month + day.

(** [d - timedelta(days=n)]: an [OverflowError] below [date.min]. *)
Definition date_sub (d : date) (n : Z) : result date :=
  if d - n <? date_min then Raise OverflowError else Ok (d - n).

(** **** [datetime.strptime(s, '%Y-%m-%d').date()]

    The format compiles to the regular expression
    [(\d\d\d\d)-(1[0-2]|0[1-9]|[1-9])-(3[01]|[12]\d|0[1-9]|[1-9]| [1-9])],
    which has to match the whole string; the year has to be at least 1 and
    the day has to exist in the month.  Digits are the ASCII digits. *)

Definition digit (c : ascii) : option Z :=
  let n := Z.of_N (N_of_ascii c) in
  if (48 <=? n) && (n <=? 57) then Some (n - 48) else None.

Definition parse_year (a b c d : ascii) : option Z :=
  match digit a, digit b, digit c, digit d with
  | Some a, Some b, Some c, Some d => Some (a * 1000 + b * 100 + c * 10 + d)
  | _, _, _, _ => None
  end.

Definition parse_month (cs : list ascii) : option Z :=
  match cs with
  | [a] =>
      match digit a with
      | Some a => if 1 <=? a then Some a else None
      | None => None
      end
  | [a; b] =>
      match digit a, digit b with
      | Some 1, Some b => if b <=? 2 then Some (10 + b) else None
      | Some 0, Some b => if 1 <=? b then Some b else None
      | _, _ => None
      end
  | _ => None
  end.

Definition parse_day (cs : list ascii) : option Z :=
  match cs with
  | [a] =>
      match digit a with
      | Some a => if 1 <=? a then Some a else None
      | None => None
      end
  | [a; b] =>
      match digit a, digit b with
      | Some 3, Some b => if b <=? 1 then Some (30 + b) else None
      | Some 1, Some b => Some (10 + b)
      | Some 2, Some b => Some (20 + b)
      | Some 0, Some b => if 1 <=? b then Some b else None
      | None, Some b =>
          if Ascii.eqb a " " && (1 <=? b) then Some b else None
      | _, _ => None
      end
  | _ => None
  end.

Definition make_date (year month day : Z) : result date :=
  if (1 <=? year) && (day <=? days_in_month year month)
  then Ok (ymd2ord year month day)
  else Raise ValueError.

Definition strptime_ymd (s : string) : result date :=
  match list_ascii_of_string s with
  | y1 :: y2 :: y3 :: y4 :: dash :: m1 :: c :: rest =>
      (* the month is one character when the next one is the dash, two
         characters otherwise *)
      let fields :=
        if Ascii.eqb c "-" then Some ([m1], rest)
        else match rest with
             | dash' :: ds => if Ascii.eqb dash' "-" then Some ([m1; c], ds) else None
             | [] => None
             end in
      match fields with
      | Some (ms, ds) =>
          match parse_year y1 y2 y3 y4, parse_month ms, parse_day ds with
          | Some year, Some month, Some day =>
              if Ascii.eqb dash "-" then make_date year month day
              else Raise ValueError
          | _, _, _ => Raise ValueError
          end
      | None => Raise ValueError
      end
  | _ => Raise ValueError
  end.

(** [strptime] demands a [str]. *)
Definition strptime (d : hashable) : result date :=
  match d with
  | HStr s => strptime_ymd s
  | _ => Raise TypeError
  end.

Definition date_ltb (a b : date) : result bool := Ok (a <? b).

(** *** The log file *)

(** The state of [DATA_FILE]: absent, bytes that do not decode as text,
    text that is not JSON, or a JSON document.  Failures of the file
    system itself (permissions, a directory in place of the file) are not
    modelled. *)
Inductive store :=
  | Missing
  | Undecodable
  | NotJson
  | Json (data : json).

(** [os.path.exists(DATA_FILE)] *)
Definition path_exists (s : store) : bool :=
  match s with
  | Missing => false
  | _ => true
  end.

(** [with open(DATA_FILE, 'r') as f: data = json.load(f)] *)
Definition json_load (s : store) : result json :=
  match s with
  | Missing => Raise FileNotFoundError
  | Undecodable => Raise UnicodeDecodeError
  | NotJson => Raise JSONDecodeError
  | Json data => Ok data
  end.

(** [data.get(k, default)]: only a [dict] has the method. *)
Definition py_get (data : json) (k : string) (default : json) : result json :=
  match data with
  | JDict m =>
      Ok (match m !! k with
          | Some v => v
          | None => default
          end)
  | _ => Raise AttributeError
  end.

(** [set(x)] for a value read from the file: a list gives its elements
    (all of which must be hashable), a string its characters, a dict its
    keys; the other values are not iterable. *)
Definition set_of_json (x : json) : result (list hashable) :=
  match x with
  | JList l => let! hs := mapM to_hashable l in Ok (py_set py_eq hs)
  | JStr s =>
      Ok (py_set py_eq
            (List.map (fun c => HStr (String c EmptyString)) (list_ascii_of_string s)))
  | JDict m => Ok (List.map (fun kv => HStr (fst kv)) (map_to_list m))
  | JNull | JBool _ | JInt _ => Raise TypeError
  end.

Definition load_streak_dates (s : store) : result (list hashable) :=
  if negb (path_exists s) then Ok []
  else
    try_except
      (let! data := json_load s in
       let! logged := py_get data "logged_dates" (JList []) in
       let! unique := set_of_json logged in
       py_sorted py_lt unique)
      (fun e => match e with
                | JSONDecodeError | KeyError => true
                | _ => false
                end)
      (Ok []).

(** [json.dump({'logged_dates': dates}, f)] into the truncated file. *)
Definition dump_dates (dates : list hashable) : store :=
  Json (JDict {[ "logged_dates"%string := JList (List.map of_hashable dates) ]}).

(** [save_new_log(date_str)]: the file after the call, and the outcome.
    The file is opened for writing only after the list is complete, so an
    exception raised before that leaves it as it was. *)
Definition save_new_log (date_str : string) (s : store) : store * result unit :=
  match load_streak_dates s with
  | Raise e => (s, Raise e)
  | Ok dates =>
      let updated :=
        if negb (py_in py_eq (HStr date_str) dates)
        then py_sorted py_lt (dates ++ [HStr date_str])
        else Ok dates in
      match updated with
      | Raise e => (s, Raise e)
      | Ok dates' => (dump_dates dates', Ok tt)
      end
  end.

(** *** Streaks *)

(** The loop of [calculate_longest_streak] over the adjacent pairs of
    [unique_dates]; returns [(longest_streak, current_length)]. *)
Fixpoint scan_pairs (unique_dates : list date) (longest_streak current_length : Z)
  : Z * Z :=
  match unique_dates with
  | a :: (b :: _) as rest =>
      if b - a =? 1
      then scan_pairs rest longest_streak (current_length + 1)
      else scan_pairs rest (Z.max longest_streak current_length) 1
  | _ => (longest_streak, current_length)
  end.

Definition calculate_longest_streak (dates_str : list hashable) : result Z :=
  match dates_str with
  | [] => Ok 0
  | _ =>
      let! parsed := mapM strptime dates_str in
      let! unique_dates := py_sorted date_ltb (py_set Z.eqb parsed) in
      let '(longest_streak, current_length) := scan_pairs unique_dates 0 1 in
      Ok (Z.max longest_streak current_length)
  end.

(** [while check_date in all_dates: current_streak += 1; check_date -= 1 day].
    [room] is the number of days between [date.min] and [check_date]: the
    number of times a day can be subtracted before the [OverflowError]. *)
Fixpoint count_back (room : nat) (all_dates : list date) (check_date : date)
    (current_streak : Z) : result Z :=
  if py_in Z.eqb check_date all_dates then
    match room with
    | O => Raise OverflowError
    | S room' => count_back room' all_dates (check_date - 1) (current_streak + 1)
    end
  else Ok current_streak.

(** [calculate_current_streak()], with the file and the clock's date as
    arguments. *)
Definition calculate_current_streak (s : store) (today : date) : result (Z * Z) :=
  let! logged_dates_str := load_streak_dates s in
  match logged_dates_str with
  | [] => Ok (0, 0)
  | _ =>
      let! parsed := mapM strptime logged_dates_str in
      let all_dates := py_set Z.eqb parsed in
      let! yesterday := date_sub today 1 in
      let counted (check_date : date) :=
        let! current_streak :=
          count_back (Z.to_nat (check_date - date_min)) all_dates check_date 0 in
        let! longest_streak := calculate_longest_streak logged_dates_str in
        Ok (current_streak, longest_streak) in
      if py_in Z.eqb today all_dates then counted today
      else if py_in Z.eqb yesterday all_dates then counted yesterday
      else let! longest_streak := calculate_longest_streak logged_dates_str in
           Ok (0, longest_streak)
  end.

(** The calendar dates that a store holds, when it can be read and every
    entry is a date string. *)
Definition logged_dates (s : store) : result (list date) :=
  let! l := load_streak_dates s in mapM strptime l.

(** A store whose record lists the given strings, in the given order. *)
Definition store_of (dates_str : list string) : store :=
  Json (JDict {[ "logged_dates"%string := JList (List.map JStr dates_str) ]}).

(** *** Vocabulary of the properties *)

(** Entries that are strings: the date strings of a well-formed log. *)
Definition is_str (h : hashable) : Prop := exists s, h = HStr s.

(** The form in which [app.py] writes a date, [strftime('%Y-%m-%d')]: ten
    characters, four digits, two digits and two digits between dashes. *)
Definition is_digit (c : ascii) : bool :=
  match digit c with
  | Some _ => true
  | None => false
  end.

Definition iso_format (s : string) : bool :=
  match list_ascii_of_string s with
  | [y1; y2; y3; y4; dash; m1; m2; dash'; d1; d2] =>
      forallb is_digit [y1; y2; y3; y4; m1; m2; d1; d2]
      && Ascii.eqb dash "-" && Ascii.eqb dash' "-"
  | _ => false
  end.

Definition is_iso (h : hashable) : Prop :=
  exists s, h = HStr s /\ iso_format s = true.

(** A year, a month and a day of that month. *)
Definition valid_ymd (y m d : Z) : Prop :=
  1 <= y /\ 1 <= m <= 12 /\ 1 <= d <= days_in_month y m.

(** The eight digits of a string in ISO form, read as one number. *)
Definition iso_key (s : string) : Z :=
  match List.map digit (list_ascii_of_string s) with
  | [Some y1; Some y2; Some y3; Some y4; _; Some m1; Some m2; _; Some d1; Some d2] =>
      (y1 * 1000 + y2 * 100 + y3 * 10 + y4) * 10000 + (m1 * 10 + m2) * 100
      + (d1 * 10 + d2)
  | _ => 0
  end.

(** Strictly ascending in Python's order. *)
Definition py_ascending : list hashable -> Prop := ascending py_lt.

Definition increasing : list date -> Prop := ascending date_ltb.

(** The file after [save_new_log(date_str)]. *)
Definition persist (date_str : string) (s : store) : store :=
  fst (save_new_log date_str s).

(** [run ds a k]: the [k] consecutive days that start on day [a] are all
    in [ds]. *)
Definition run (ds : list date) (a k : Z) : Prop :=
  forall i, 0 <= i < k -> In (a + i) ds.

(** [n] is the length of the longest run of consecutive days in [ds]. *)
Definition longest_run (ds : list date) (n : Z) : Prop :=
  0 <= n
  /\ (exists a, run ds a n)
  /\ (forall a k, run ds a k -> k <= n).

(** The state of the scan when its head is [a]: the [cur] days that end on
    [a] are the run in progress, [rest] is still to be read. *)
Definition seen_or_ahead (a cur : Z) (rest : list date) (x : Z) : Prop :=
  a - cur < x <= a \/ In x rest.

(** [n] is the number of consecutive logged days that end on day [d]:
    counting backward from [d], [n] days are logged and day [d - n] is
    not. *)
Definition counted_back (ds : list date) (d : date) (n : Z) : Prop :=
  0 <= n
  /\ (forall i, 0 <= i < n -> In (d - i) ds)
  /\ ~ In (d - n) ds.

(** The same count when the first missing day, [d - n], is a date of the
    calendar: Python has no date before [date.min]. *)
Definition backward_run (ds : list date) (d : date) (n : Z) : Prop :=
  counted_back ds d n /\ date_min <= d - n.

(** The longest streak of the dates in the file. *)
Definition longest_of (s : store) : result Z :=
  let! l := load_streak_dates s in calculate_longest_streak l.

End Streak.

(* ===================================================================== *)
(** ** Signs of binary64 values                                           *)
(* ===================================================================== *)

Module Sign.

#[local] Open Scope float_scope.

(** [not (x < 0)]: zero of either sign, a positive number, plus infinity,
    and NaN (which compares false with everything). *)
Definition not_negative (x : float) : Prop := (x <? 0) = false.

(** The same on the specification of binary64. *)
Definition sf_not_negative (f : spec_float) : Prop :=
  match f with
  | S754_zero _ | S754_nan => True
  | S754_infinity s | S754_finite s _ _ => s = false
  end.

End Sign.

(* ===================================================================== *)
(** ** The streak handlers of [app.py]                                    *)
(* ===================================================================== *)

Module App.
Import Streak.

#[local] Open Scope Z_scope.

(** **** [datetime.now().strftime('%Y-%m-%d')]

    The clock's date is given by its year, month and day.  The month and
    the day are written with two digits and the year with its last four:
    for the years 1000 to 9999 that is the year itself (below 1000 the C
    library decides the padding, and the properties say nothing). *)
Definition digit_char (n : Z) : ascii := ascii_of_N (Z.to_N (48 + n)).

Definition strftime_ymd (year month day : Z) : string :=
  string_of_list_ascii
    [digit_char (year / 1000 mod 10); digit_char (year / 100 mod 10);
     digit_char (year / 10 mod 10); digit_char (year mod 10); "-"%char;
     digit_char (month / 10); digit_char (month mod 10); "-"%char;
     digit_char (day / 10); digit_char (day mod 10)].

(** [log_action()], with the clock's date and the file as arguments: the
    file after the call and the outcome ([st.rerun()] is not modelled). *)
Definition log_action (year month day : Z) (s : store) : store * result unit :=
  let today_str := strftime_ymd year month day in
  save_new_log today_str s.

(** The streak section of the page: the two metrics and whether the button
    reads as logged.  The clock is read twice, once inside
    [calculate_current_streak] ([today]) and once for [today_str]. *)
Definition streak_panel (today : date) (year month day : Z) (s : store)
  : result (Z * Z * bool) :=
  let! streaks := calculate_current_streak s today in
  let today_str := strftime_ymd year month day in
  let! logged_dates := load_streak_dates s in
  Ok (fst streaks, snd streaks, py_in py_eq (HStr today_str) logged_dates).

(** *** Vocabulary of the properties *)

(** The values that [<] compares with each other: numbers with numbers
    ([Some true]), strings with strings ([Some false]); [None] compares
    with nothing. *)
Definition kind (h : hashable) : option bool :=
  match key_of h with
  | KNum _ => Some true
  | KStr _ => Some false
  | KNone => None
  end.

(** A list that [sorted] can have returned: at most one element, or all
    of one kind. *)
Definition comparable (l : list hashable) : Prop :=
  (List.length l <= 1)%nat \/ exists k, Forall (fun h => kind h = Some k) l.

End App.

(* ===================================================================== *)
(** ** The background image of the page                                   *)
(* ===================================================================== *)

Module Style.
Import Streak.

#[local] Open Scope N_scope.

(** **** [base64.b64encode(bytes).decode()]

    The standard alphabet, three bytes to four characters, [=] padding. *)
Definition b64_char (i : N) : ascii :=
  if i <? 26 then ascii_of_N (65 + i)
  else if i <? 52 then ascii_of_N (97 + (i - 26))
  else if i <? 62 then ascii_of_N (48 + (i - 52))
  else if i =? 62 then "+"%char
  else "/"%char.

Fixpoint b64encode (bs : list ascii) : list ascii :=
  match bs with
  | [] => []
  | [a] =>
      let n := N_of_ascii a * 65536 in
      [b64_char (n / 262144); b64_char (n / 4096 mod 64); "="%char; "="%char]
  | [a; b] =>
      let n := N_of_ascii a * 65536 + N_of_ascii b * 256 in
      [b64_char (n / 262144); b64_char (n / 4096 mod 64); b64_char (n / 64 mod 64);
       "="%char]
  | a :: b :: c :: rest =>
      let n := N_of_ascii a * 65536 + N_of_ascii b * 256 + N_of_ascii c in
      b64_char (n / 262144) :: b64_char (n / 4096 mod 64)
      :: b64_char (n / 64 mod 64) :: b64_char (n mod 64) :: b64encode rest
  end.

(** The image file: absent, or present with its bytes.  Other failures of
    the file system are not modelled. *)
Inductive image_file :=
  | NoImage
  | Image (bytes : list ascii).

(** [with open(image_path, "rb") as image_file: image_file.read()] *)
Definition read_image (f : image_file) : result (list ascii) :=
  match f with
  | NoImage => Raise FileNotFoundError
  | Image bytes => Ok bytes
  end.

(** [get_base64_image(image_path)]: [None] is Python's [None]. *)
Definition get_base64_image (f : image_file) : result (option string) :=
  try_except
    (let! bytes := read_image f in Ok (Some (string_of_list_ascii (b64encode bytes))))
    (fun e => match e with
              | FileNotFoundError => true
              | _ => false
              end)
    (Ok None).

Definition newline : string := String (ascii_of_N 10) EmptyString.
Definition quote : string := String (ascii_of_N 34) EmptyString.

Definition fallback_css : string := "background-color: #121212;".

(** The value of [background_css] in [apply_custom_style] after the
    [if b64_image:] statement: [None] and the empty string are false. *)
Definition background_css (b64_image : option string) : string :=
  match b64_image with
  | Some (String c rest) =>
      (newline ++ "        background: url(" ++ quote ++ "data:image/jpg;base64,"
       ++ String c rest ++ quote ++ ") no-repeat center center fixed; "
       ++ newline ++ "        background-size: cover;"
       ++ newline ++ "        background-color: #121212; /* Fallback/Blend color */"
       ++ newline ++ "        ")%string
  | Some EmptyString | None => fallback_css
  end.

(** The first two statements of [apply_custom_style] and the [if]. *)
Definition apply_custom_style_background (f : image_file) : result string :=
  let! b64_image := get_base64_image f in
  Ok (background_css b64_image).

(** *** Vocabulary of the properties *)

(** The characters of base64 text: letters, digits, [+], [/] and [=]. *)
Definition is_b64 (c : ascii) : bool :=
  let n := N_of_ascii c in
  ((65 <=? n) && (n <=? 90)) || ((97 <=? n) && (n <=? 122))
  || ((48 <=? n) && (n <=? 57)) || (n =? 43) || (n =? 47) || (n =? 61).

(** The place of a character in the alphabet. *)
Definition b64_index (c : ascii) : N :=
  let n := N_of_ascii c in
  if (65 <=? n) && (n <=? 90) then n - 65
  else if (97 <=? n) && (n <=? 122) then n - 71
  else if (48 <=? n) && (n <=? 57) then n + 4
  else if n =? 43 then 62
  else 63.

End Style.

(* ===================================================================== *)
(** ** Properties of the calculators                                      *)
(* ===================================================================== *)

Module CalculatorFacts.
Import Calculator.

#[local] Open Scope float_scope.

(** *** The worked example of the design notes *)

Example end_to_end_footprint :
  fst (handle_calculation 250 500 1000 "vegetarian" true)
  = {| Total := 313.5; Energy := 100; Travel := 97.5; Diet := 108; Waste := 8 |}.
Proof. vm_compute. reflexivity. Qed.

Example end_to_end_savings :
  snd (handle_calculation 250 500 1000 "vegetarian" true)
  = {| TotalSavings := 5900; EnergySavings := 1200; TravelSavings := 3200;
       DietSavings := 1500 |}.
Proof. vm_compute. reflexivity. Qed.

(** *** Binary64 comparison against zero *)

Lemma ltb_zero_asym (x : float) : (0 <? x) = true -> (x <? 0) = false.
Proof.
  rewrite !ltb_spec. unfold SFltb, SFcompare.
  change (Prim2SF 0) with (S754_zero false).
  destruct (Prim2SF x) as [ [|] | [|] | | [|] m e ]; simpl; congruence.
Qed.

Lemma py_max_zero_nonneg (x : float) : (py_max 0 x <? 0) = false.
Proof.
  unfold py_max. destruct (0 <? x) eqn:E.
  - now apply ltb_zero_asym.
  - reflexivity.
Qed.

(** *** Diet footprint *)

Lemma diet_factor_unrecognized (diet_type : string) :
  unrecognized diet_type -> diet_factor diet_type = 2.0.
Proof.
  intros (H1 & H2 & H3). unfold diet_factor.
  apply String.eqb_neq in H1, H2, H3. now rewrite H1, H2, H3.
Qed.

(** What the source does for the strings it knows and for all the others:
    the 2.5 factor belongs to the spelling ["omniverous"], which is also
    the option that the form of [app.py] offers. *)
Lemma diet_footprint_by_literal (m : float) :
  calculate_diet_footprint "vegan" m = m * 0.5
  /\ calculate_diet_footprint "vegetarian" m = m * 1.2
  /\ calculate_diet_footprint "omniverous" m = m * 2.5
  /\ (forall diet_type, unrecognized diet_type ->
        calculate_diet_footprint diet_type m = m * 2.0).
Proof.
  repeat split; try reflexivity.
  intros diet_type H. unfold calculate_diet_footprint.
  now rewrite diet_factor_unrecognized.
Qed.

(** C3.  The category string "omnivorous" is not one of the literals that
    [calculate_diet_footprint] compares with (the source spells the third
    one "omniverous"): it takes the fallback factor 2.0 for every meal
    count, so 90 meals give 180 and not 90 * 2.5 = 225. *)
Theorem diet_footprint_omnivorous_fallback :
  (forall m : float, calculate_diet_footprint "omnivorous" m = m * 2.0)
  /\ calculate_diet_footprint "omnivorous" 90 = 180
  /\ (90 * 2.5 = 225 /\ (180 =? 225) = false).
Proof. repeat split. Qed.

(** *** Savings *)

Lemma ltb_irrefl (x : float) : (x <? x) = false.
Proof.
  rewrite ltb_spec. unfold SFltb, SFcompare.
  destruct (Prim2SF x) as [ [|] | [|] | | [|] m e ]; try reflexivity;
    rewrite Z.compare_refl, Pos.compare_cont_refl; reflexivity.
Qed.

(** C5.  For every consumption, distance and diet string the savings
    record holds: energy = max(0, kwh*8.0 - 100*8.0), travel =
    max(0, car_km*8.0 - 100*8.0), diet = 1500 for "vegetarian", 2500 for
    "vegan" and 0 for every other string, total = the sum of the three;
    and none of the three category savings is below zero.  The maximum is
    spelled out with the comparison of binary64: the saving is the cost
    above the benchmark when that is greater than 0, and 0 otherwise (so
    also for a cost that is not a number); it is below neither of the
    two. *)
Theorem financial_savings_breakdown (kwh car_km : float) (diet_type : string) :
  let r := calculate_financial_savings kwh car_km diet_type in
  let energy_excess := kwh * 8.0 - 100 * 8.0 in
  let travel_excess := car_km * 8.0 - 100 * 8.0 in
  EnergySavings r = py_max 0 (kwh * 8.0 - 100 * 8.0)
  /\ TravelSavings r = py_max 0 (car_km * 8.0 - 100 * 8.0)
  /\ EnergySavings r = (if 0 <? energy_excess then energy_excess else 0)
  /\ TravelSavings r = (if 0 <? travel_excess then travel_excess else 0)
  /\ (EnergySavings r <? energy_excess) = false
  /\ (TravelSavings r <? travel_excess) = false
  /\ DietSavings r =
       (if String.eqb diet_type "vegetarian" then 1500
        else if String.eqb diet_type "vegan" then 2500 else 0)
  /\ DietSavings (calculate_financial_savings kwh car_km "vegetarian") = 1500
  /\ DietSavings (calculate_financial_savings kwh car_km "vegan") = 2500
  /\ TotalSavings r = EnergySavings r + TravelSavings r + DietSavings r
  /\ (EnergySavings r <? 0) = false
  /\ (TravelSavings r <? 0) = false
  /\ (DietSavings r <? 0) = false.
Proof.
  cbv zeta.
  assert (Hmax : forall x, (py_max 0 x <? x) = false).
  { intros x. unfold py_max. destruct (0 <? x) eqn:E; [apply ltb_irrefl | exact E]. }
  repeat split.
  - apply Hmax.
  - apply Hmax.
  - apply py_max_zero_nonneg.
  - apply py_max_zero_nonneg.
  - cbn [calculate_financial_savings DietSavings].
    destruct (String.eqb diet_type "vegetarian");
      [|destruct (String.eqb diet_type "vegan")]; reflexivity.
Qed.

(** The two sides of the benchmark: 250 kWh and 500 km are above it and
    save 1200 and 3200; 50 kWh and 20 km are below it and save nothing. *)
Example savings_above_and_below_benchmark :
  EnergySavings (calculate_financial_savings 250 500 "other") = 1200
  /\ TravelSavings (calculate_financial_savings 250 500 "other") = 3200
  /\ EnergySavings (calculate_financial_savings 50 20 "other") = 0
  /\ TravelSavings (calculate_financial_savings 50 20 "other") = 0.
Proof. repeat split. Qed.

(** *** Total footprint *)

(** C6.  The breakdown returned by [calculate_total_footprint]: waste is
    10 * w, the three other components are the arguments unchanged, and
    the total is energy + travel + diet + 10 * w, the sum of the four
    components. *)
Theorem total_footprint_breakdown (energy travel diet w : float) :
  let r := calculate_total_footprint energy travel diet w in
  Waste r = 10 * w
  /\ Energy r = energy /\ Travel r = travel /\ Diet r = diet
  /\ Total r = energy + travel + diet + 10 * w
  /\ Total r = Energy r + Travel r + Diet r + Waste r.
Proof. cbv zeta. repeat split. Qed.

(** C8, as stated, fails in binary64 arithmetic: for the sample above the
    total with factor 0.8 is 62.1 while the total with factor 1.0, less
    2.0, is 62.099999999999994 (the sum with 10.0 is rounded in the next
    binade).  The two are different floats and Python's [==] is false. *)
Lemma recycling_total_offset_fails :
  Total (calculate_total_footprint sample_energy sample_travel sample_diet 0.8)
    = 62.1
  /\ Total (calculate_total_footprint sample_energy sample_travel sample_diet 1.0) - 2.0
    = 62.099999999999994
  /\ (Total (calculate_total_footprint sample_energy sample_travel sample_diet 0.8)
      =? Total (calculate_total_footprint sample_energy sample_travel sample_diet 1.0) - 2.0)
     = false
  /\ ~ (forall e t d : float,
          Total (calculate_total_footprint e t d 0.8)
          = Total (calculate_total_footprint e t d 1.0) - 2.0).
Proof.
  assert (H : (Total (calculate_total_footprint sample_energy sample_travel sample_diet 0.8)
      =? Total (calculate_total_footprint sample_energy sample_travel sample_diet 1.0) - 2.0)
     = false) by (vm_compute; reflexivity).
  repeat split; try (vm_compute; reflexivity).
  intros Hall. specialize (Hall sample_energy sample_travel sample_diet).
  rewrite <- Hall in H. vm_compute in H. discriminate.
Qed.

(** C8, amended.  For every energy, travel and diet value the waste
    component with factor 0.8 is the waste component with factor 1.0 less
    2.0 (8.0 against 10.0), and the two totals are the binary64 sums
    (e + t + d) + 8.0 and (e + t + d) + 10.0. *)
Theorem recycling_waste_offset (e t d : float) :
  let recycled := calculate_total_footprint e t d 0.8 in
  let plain := calculate_total_footprint e t d 1.0 in
  Waste recycled = Waste plain - 2.0
  /\ Waste recycled = 8.0 /\ Waste plain = 10.0
  /\ Total recycled = e + t + d + 8.0
  /\ Total plain = e + t + d + 10.0.
Proof. cbv zeta. repeat split. Qed.

End CalculatorFacts.

(* ===================================================================== *)
(** ** Properties of the streak tracker                                   *)
(* ===================================================================== *)

Module StreakFacts.
Import Streak.

#[local] Open Scope Z_scope.

(** *** Fallible computations *)

Lemma bind_Ok {A B} (c : result A) (k : A -> result B) (b : B) :
  bind c k = Ok b -> exists a, c = Ok a /\ k a = Ok b.
Proof. destruct c as [a|e]; simpl; [eauto | discriminate]. Qed.

Ltac inv_bind H :=
  let a := fresh "a" in
  let Ha := fresh "H" a in
  apply bind_Ok in H; destruct H as (a & Ha & H).

Lemma mapM_map_Ok {A B} (f : A -> result B) (g : B -> A) (l : list B) :
  (forall y, f (g y) = Ok y) -> mapM f (List.map g l) = Ok l.
Proof.
  intros Hfg. induction l as [|y l IH]; simpl; [reflexivity|].
  now rewrite Hfg, IH.
Qed.

(** *** [set] and [sorted], for any element type *)

Section ContainerFacts.
Context {A K : Type}.
Variable eqb : A -> A -> bool.
Variable ltb : A -> A -> result bool.
Variable key : A -> K.

(** Equality is the equality of keys; [<] is a strict order on the
    elements that it can compare, and distinct comparable elements are
    ordered one way or the other. *)
Hypothesis eqb_key : forall a b, eqb a b = true <-> key a = key b.
Hypothesis ltb_asym : forall a b, ltb a b = Ok true -> ltb b a = Ok false.
Hypothesis ltb_connex :
  forall a b, ltb a b = Ok false -> key a <> key b -> ltb b a = Ok true.

Lemma eqb_false_key (a b : A) : eqb a b = false <-> key a <> key b.
Proof.
  rewrite <- eqb_key. destruct (eqb a b); split; congruence.
Qed.

Lemma py_in_key (x : A) (l : list A) :
  py_in eqb x l = true <-> In (key x) (List.map key l).
Proof.
  unfold py_in. rewrite existsb_exists, in_map_iff. split.
  - intros (y & Hy & E). apply eqb_key in E. eauto.
  - intros (y & E & Hy). exists y. split; [assumption|]. now apply eqb_key.
Qed.

Lemma py_set_incl (l : list A) (x : A) : In x (py_set eqb l) -> In x l.
Proof.
  revert x. induction l as [|y l IH]; simpl; intros x H; [assumption|].
  destruct H as [H|H]; [now left|].
  apply filter_In in H. right. now apply IH.
Qed.

Lemma py_set_keys (l : list A) (k : K) :
  In k (List.map key (py_set eqb l)) <-> In k (List.map key l).
Proof.
  induction l as [|y l IH]; simpl; [reflexivity|].
  split.
  - intros [H|H]; [now left|]. right. apply IH.
    apply in_map_iff in H as (z & E & Hz). apply filter_In in Hz as [Hz _].
    apply in_map_iff. eauto.
  - intros [H|H]; [now left|].
    apply IH in H. apply in_map_iff in H as (z & E & Hz).
    destruct (eqb y z) eqn:Eyz.
    + left. apply eqb_key in Eyz. congruence.
    + right. apply in_map_iff. exists z. split; [assumption|].
      apply filter_In. now rewrite Eyz.
Qed.

Lemma py_set_NoDup (l : list A) : List.NoDup (List.map key (py_set eqb l)).
Proof.
  induction l as [|y l IH]; simpl; [constructor|].
  constructor.
  - intros H. apply in_map_iff in H as (z & E & Hz).
    apply filter_In in Hz as [_ Hz].
    apply Bool.negb_true_iff, eqb_false_key in Hz. congruence.
  - clear -IH. induction (py_set eqb l) as [|z s IHs]; simpl; [constructor|].
    inversion IH as [|? ? Hz Hs]; subst.
    destruct (negb (eqb y z)); simpl; [|auto].
    constructor; [|auto].
    intros H. apply Hz. apply in_map_iff in H as (w & E & Hw).
    apply filter_In in Hw as [Hw _]. apply in_map_iff. eauto.
Qed.

Lemma py_set_id (l : list A) :
  List.NoDup (List.map key l) -> py_set eqb l = l.
Proof.
  induction l as [|y l IH]; simpl; intros H; [reflexivity|].
  inversion H as [|? ? Hy Hl]; subst. rewrite (IH Hl). f_equal.
  apply forallb_filter_id. apply forallb_forall. intros z Hz.
  apply Bool.negb_true_iff, eqb_false_key. intros E. apply Hy.
  rewrite E. now apply in_map.
Qed.

Lemma insort_perm (x : A) (l r : list A) :
  insort ltb x l = Ok r -> Permutation (x :: l) r.
Proof.
  revert r. induction l as [|y l IH]; simpl; intros r H.
  - injection H as <-. reflexivity.
  - inv_bind H. destruct a.
    + inv_bind H. injection H as <-.
      rewrite perm_swap. constructor. now apply IH.
    + injection H as <-. reflexivity.
Qed.

Lemma py_sorted_perm (l r : list A) : py_sorted ltb l = Ok r -> Permutation l r.
Proof.
  revert r. induction l as [|x l IH]; simpl; intros r H.
  - injection H as <-. reflexivity.
  - inv_bind H. apply insort_perm in H. rewrite <- H. constructor. now apply IH.
Qed.

Lemma insort_HdRel (x a : A) (l r : list A) :
  insort ltb x l = Ok r ->
  ltb a x = Ok true -> HdRel (fun a b => ltb a b = Ok true) a l ->
  HdRel (fun a b => ltb a b = Ok true) a r.
Proof.
  destruct l as [|y l]; simpl; intros H Hax Hal.
  - injection H as <-. now constructor.
  - inv_bind H. apply HdRel_inv in Hal. destruct a0.
    + inv_bind H. injection H as <-. now constructor.
    + injection H as <-. now constructor.
Qed.

Lemma insort_ascending (x : A) (l r : list A) :
  ascending ltb l -> ~ In (key x) (List.map key l) ->
  insort ltb x l = Ok r -> ascending ltb r.
Proof.
  unfold ascending. revert r. induction l as [|y l IH]; simpl; intros r Hs Hx H.
  - injection H as <-. repeat constructor.
  - inv_bind H. apply Sorted_inv in Hs as [Hs Hy]. destruct a.
    + inv_bind H. injection H as <-. constructor.
      * apply IH; auto.
      * eapply insort_HdRel; eauto.
    + injection H as <-. repeat constructor; auto.
Qed.

Lemma py_sorted_ascending (l r : list A) :
  List.NoDup (List.map key l) -> py_sorted ltb l = Ok r -> ascending ltb r.
Proof.
  revert r. induction l as [|x l IH]; simpl; intros r Hnd H.
  - injection H as <-. constructor.
  - inv_bind H. inversion Hnd as [|? ? Hx Hl]; subst.
    eapply insort_ascending; eauto.
    intros Hin. apply Hx. apply py_sorted_perm in Ha.
    eapply Permutation_in; [|exact Hin]. symmetry. now apply Permutation_map.
Qed.

Lemma insort_below_head (x : A) (l : list A) :
  ascending ltb (x :: l) -> insort ltb x l = Ok (x :: l).
Proof.
  intros H. apply Sorted_inv in H as [_ H].
  destruct l as [|y l]; simpl; [reflexivity|].
  apply HdRel_inv in H. now rewrite (ltb_asym _ _ H).
Qed.

Lemma py_sorted_id (l : list A) : ascending ltb l -> py_sorted ltb l = Ok l.
Proof.
  induction l as [|x l IH]; simpl; intros H; [reflexivity|].
  rewrite IH by (now apply Sorted_inv in H). simpl.
  now apply insort_below_head.
Qed.

(** Sorting cannot fail on elements that are all comparable. *)
Lemma insort_total (P : A -> Prop) (x : A) (l : list A) :
  (forall a b, P a -> P b -> exists c, ltb a b = Ok c) ->
  P x -> Forall P l -> exists r, insort ltb x l = Ok r.
Proof.
  intros Hcmp Hx Hl. induction Hl as [|y l Hy Hl IH]; simpl; [eauto|].
  destruct (Hcmp y x Hy Hx) as [[|] ->]; simpl; [|eauto].
  destruct IH as [r ->]. simpl. eauto.
Qed.

Lemma py_sorted_total (P : A -> Prop) (l : list A) :
  (forall a b, P a -> P b -> exists c, ltb a b = Ok c) ->
  Forall P l -> exists r, py_sorted ltb l = Ok r.
Proof.
  intros Hcmp Hl. induction Hl as [|x l Hx Hl IH]; simpl; [eauto|].
  destruct IH as [s Hs]. rewrite Hs. simpl.
  apply (insort_total P); auto.
  apply py_sorted_perm in Hs. rewrite List.Forall_forall in *.
  intros y Hy. apply Hl. eapply Permutation_in; [|exact Hy]. now symmetry.
Qed.

End ContainerFacts.

(** *** Python values: equality and order *)

Lemma py_eq_key (a b : hashable) : py_eq a b = true <-> key_of a = key_of b.
Proof.
  unfold py_eq. destruct (key_of a) as [|x|s], (key_of b) as [|y|t];
    try (split; [discriminate | congruence]).
  - split; reflexivity.
  - rewrite Z.eqb_eq. split; congruence.
  - rewrite String.eqb_eq. split; congruence.
Qed.

Lemma string_ltb_asym (s t : string) : String.ltb s t = true -> String.ltb t s = false.
Proof.
  unfold String.ltb. rewrite (String.compare_antisym t s).
  now destruct (String.compare s t).
Qed.

Lemma string_ltb_connex (s t : string) :
  String.ltb s t = false -> s <> t -> String.ltb t s = true.
Proof.
  unfold String.ltb. rewrite (String.compare_antisym t s).
  destruct (String.compare s t) eqn:E; simpl; try congruence.
  apply String.compare_eq_iff in E. congruence.
Qed.

Lemma py_lt_asym (a b : hashable) : py_lt a b = Ok true -> py_lt b a = Ok false.
Proof.
  unfold py_lt. destruct (key_of a) as [|x|s], (key_of b) as [|y|t];
    try discriminate; intros [= H]; f_equal.
  - lia.
  - now apply string_ltb_asym.
Qed.

Lemma py_lt_connex (a b : hashable) :
  py_lt a b = Ok false -> key_of a <> key_of b -> py_lt b a = Ok true.
Proof.
  unfold py_lt. destruct (key_of a) as [|x|s], (key_of b) as [|y|t];
    try discriminate; intros [= H] Hne; f_equal.
  - assert (x <> y) by congruence. lia.
  - apply string_ltb_connex; congruence.
Qed.

Lemma py_lt_str (a b : hashable) : is_str a -> is_str b -> exists c, py_lt a b = Ok c.
Proof. intros [s ->] [t ->]. simpl. eauto. Qed.

Lemma key_of_str (h : hashable) (s : string) : key_of h = KStr s -> h = HStr s.
Proof. destruct h as [|[|]| |]; simpl; congruence. Qed.

Lemma py_in_str (d : string) (l : list hashable) :
  py_in py_eq (HStr d) l = true <-> In (HStr d) l.
Proof.
  rewrite (py_in_key py_eq key_of py_eq_key). simpl. rewrite in_map_iff. split.
  - intros (y & E & Hy). apply key_of_str in E. now subst.
  - intros H. exists (HStr d). now split.
Qed.

(** *** Dates: equality and order *)

Lemma Zeqb_key (a b : Z) : (a =? b) = true <-> id a = id b.
Proof. apply Z.eqb_eq. Qed.

Lemma date_ltb_connex (a b : date) :
  date_ltb a b = Ok false -> id a <> id b -> date_ltb b a = Ok true.
Proof. unfold date_ltb, id. intros [= H] Hne. f_equal. lia. Qed.

Lemma py_in_date (d : date) (l : list date) : py_in Z.eqb d l = true <-> In d l.
Proof. rewrite (py_in_key Z.eqb id Zeqb_key). now rewrite List.map_id. Qed.

Lemma py_set_date (l : list date) (d : date) : In d (py_set Z.eqb l) <-> In d l.
Proof.
  pose proof (py_set_keys Z.eqb id Zeqb_key l d) as H.
  now rewrite !List.map_id in H.
Qed.

(** *** The loader *)

Lemma list_fmap_map {A B} (f : A -> B) (l : list A) : f <$> l = List.map f l.
Proof. induction l as [|x l IH]; [reflexivity|]. cbn. now rewrite IH. Qed.

Lemma set_of_json_NoDup (x : json) (u : list hashable) :
  set_of_json x = Ok u -> List.NoDup (List.map key_of u).
Proof.
  destruct x as [| | |s|l|m]; simpl; try discriminate.
  - intros [= <-]. apply (py_set_NoDup py_eq key_of py_eq_key).
  - intros H. inv_bind H. injection H as <-.
    apply (py_set_NoDup py_eq key_of py_eq_key).
  - intros [= <-]. rewrite List.map_map. simpl.
    rewrite <- (List.map_map fst KStr). apply List.NoDup_map_NoDup_ForallPairs.
    + intros a b _ _. congruence.
    + rewrite <- list_fmap_map. apply NoDup_ListNoDup, NoDup_fst_map_to_list.
Qed.

(** Whatever the loader returns is the sorted image of a duplicate-free
    collection. *)
Lemma load_streak_dates_Ok (s : store) (l : list hashable) :
  load_streak_dates s = Ok l ->
  py_ascending l /\ List.NoDup (List.map key_of l).
Proof.
  assert (Hnil : py_ascending [] /\ List.NoDup (List.map key_of []))
    by (split; constructor).
  unfold load_streak_dates.
  destruct s as [| | |data]; simpl; try discriminate;
    try (intros [= <-]; exact Hnil).
  destruct (py_get data "logged_dates" (JList [])) as [logged|e] eqn:Hget;
    simpl; [|destruct e; try discriminate; intros [= <-]; exact Hnil].
  destruct (set_of_json logged) as [u|e] eqn:Hset;
    simpl; [|destruct e; try discriminate; intros [= <-]; exact Hnil].
  destruct (py_sorted py_lt u) as [r|e] eqn:Hsort;
    simpl; [|destruct e; try discriminate; intros [= <-]; exact Hnil].
  intros [= <-]. apply set_of_json_NoDup in Hset. split.
  - eapply (py_sorted_ascending py_lt key_of py_lt_connex); eauto.
  - eapply Permutation_NoDup; [|exact Hset].
    apply Permutation_map. exact (py_sorted_perm py_lt _ _ Hsort).
Qed.

Lemma load_dump_dates (l : list hashable) :
  py_ascending l -> List.NoDup (List.map key_of l) ->
  load_streak_dates (dump_dates l) = Ok l.
Proof.
  intros Hs Hnd. unfold load_streak_dates, dump_dates. simpl.
  rewrite lookup_singleton_eq. simpl.
  rewrite (mapM_map_Ok to_hashable of_hashable) by (now intros []). simpl.
  rewrite (py_set_id py_eq key_of py_eq_key) by assumption.
  now rewrite (py_sorted_id py_lt py_lt_asym).
Qed.


Lemma py_lt_raise (a b : hashable) (e : exn) : py_lt a b = Raise e -> e = TypeError.
Proof.
  unfold py_lt. destruct (key_of a), (key_of b); congruence.
Qed.

Lemma insort_raise (x : hashable) (l : list hashable) (e : exn) :
  insort py_lt x l = Raise e -> e = TypeError.
Proof.
  induction l as [|y l IH]; simpl; [discriminate|].
  destruct (py_lt y x) as [[|]|e'] eqn:E; simpl.
  - destruct (insort py_lt x l); simpl; [discriminate|].
    intros [= <-]. now apply IH.
  - discriminate.
  - intros [= <-]. now apply py_lt_raise in E.
Qed.

Lemma py_sorted_raise (l : list hashable) (e : exn) :
  py_sorted py_lt l = Raise e -> e = TypeError.
Proof.
  induction l as [|x l IH]; simpl; [discriminate|].
  destruct (py_sorted py_lt l) as [s|e']; simpl.
  - apply insort_raise.
  - intros [= <-]. now apply IH.
Qed.

Lemma load_store_of (dates_str : list string) :
  load_streak_dates (store_of dates_str)
  = py_sorted py_lt (py_set py_eq (List.map HStr dates_str)).
Proof.
  unfold load_streak_dates, store_of. simpl.
  rewrite lookup_singleton_eq. simpl.
  replace (List.map JStr dates_str) with (List.map of_hashable (List.map HStr dates_str))
    by (rewrite List.map_map; reflexivity).
  rewrite (mapM_map_Ok to_hashable of_hashable) by (now intros []). simpl.
  destruct (py_sorted py_lt _) as [l|e] eqn:E; simpl; [reflexivity|].
  now rewrite (py_sorted_raise _ _ E).
Qed.

Lemma key_of_NoDup (l : list hashable) : List.NoDup (List.map key_of l) -> List.NoDup l.
Proof. apply List.NoDup_map_inv. Qed.

(** C4.  [load_streak_dates] returns the empty list for a missing file
    and for text that is not JSON, but it lets through the exceptions that
    its [except] clause does not name: every JSON document that is not
    an object, such as [[]] ([AttributeError] at [data.get]), a
    ["logged_dates"] entry that is not iterable or that mixes numbers with
    strings ([TypeError]), and bytes that do not decode as text
    ([UnicodeDecodeError]). *)
Theorem load_streak_dates_uncaught :
  load_streak_dates Missing = Ok []
  /\ load_streak_dates NotJson = Ok []
  /\ load_streak_dates (Json (JList [])) = Raise AttributeError
  /\ load_streak_dates (Json (JDict {[ "logged_dates"%string := JInt 5 ]}))
     = Raise TypeError
  /\ load_streak_dates
       (Json (JDict {[ "logged_dates"%string := JList [JInt 1; JStr "2024-01-01"] ]}))
     = Raise TypeError
  /\ load_streak_dates Undecodable = Raise UnicodeDecodeError
  /\ (forall data : json,
        (forall m, data <> JDict m) ->
        load_streak_dates (Json data) = Raise AttributeError).
Proof.
  repeat split.
  intros data Hdict. destruct data; try reflexivity. now destruct (Hdict m).
Qed.

(** *** The calendar: ordinals grow with year, month and day *)

Lemma days_before_year_succ (y : Z) :
  1 <= y ->
  days_before_year (y + 1) = days_before_year y + (if is_leap y then 366 else 365).
Proof.
  intros Hy. unfold days_before_year, is_leap.
  replace (y + 1 - 1) with y by lia.
  destruct (y mod 4 =? 0) eqn:E4; destruct (y mod 100 =? 0) eqn:E100;
    destruct (y mod 400 =? 0) eqn:E400; simpl;
    rewrite ?Z.eqb_eq, ?Z.eqb_neq in *;
    Z.to_euclidean_division_equations; lia.
Qed.

Lemma days_before_year_le (y y' : Z) :
  1 <= y -> y <= y' -> days_before_year y <= days_before_year y'.
Proof.
  intros Hy Hle. replace y' with (y + Z.of_nat (Z.to_nat (y' - y))) by lia.
  induction (Z.to_nat (y' - y)) as [|k IH].
  - replace (y + Z.of_nat 0) with y by lia. lia.
  - replace (y + Z.of_nat (S k)) with (y + Z.of_nat k + 1) by lia.
    rewrite days_before_year_succ by lia. destruct (is_leap _); lia.
Qed.

Lemma month_cases (m : Z) :
  1 <= m <= 12 ->
  m = 1 \/ m = 2 \/ m = 3 \/ m = 4 \/ m = 5 \/ m = 6 \/ m = 7 \/ m = 8
  \/ m = 9 \/ m = 10 \/ m = 11 \/ m = 12.
Proof. lia. Qed.

Lemma within_year (y m d : Z) :
  valid_ymd y m d ->
  days_before_month y m + d <= (if is_leap y then 366 else 365).
Proof.
  intros (_ & Hm & Hd). unfold days_before_month, days_in_month in *.
  destruct (month_cases m Hm) as [H|[H|[H|[H|[H|[H|[H|[H|[H|[H|[H|H]]]]]]]]]]];
    subst m; simpl in *; destruct (is_leap y); simpl in *; lia.
Qed.

Lemma next_month (y m m' : Z) :
  1 <= m <= 12 -> 1 <= m' <= 12 -> m < m' ->
  days_before_month y m + days_in_month y m <= days_before_month y m'.
Proof.
  intros Hm Hm' Hlt. unfold days_before_month, days_in_month.
  destruct (month_cases m Hm) as [H|[H|[H|[H|[H|[H|[H|[H|[H|[H|[H|H]]]]]]]]]]];
    subst m;
    destruct (month_cases m' Hm') as [H|[H|[H|[H|[H|[H|[H|[H|[H|[H|[H|H]]]]]]]]]]];
    subst m'; try lia; simpl; destruct (is_leap y); simpl; lia.
Qed.

Lemma ymd2ord_lt (y m d y' m' d' : Z) :
  valid_ymd y m d -> valid_ymd y' m' d' ->
  y < y' \/ (y = y' /\ (m < m' \/ (m = m' /\ d < d'))) ->
  ymd2ord y m d < ymd2ord y' m' d'.
Proof.
  intros Hv Hv' Hlt. unfold ymd2ord.
  destruct Hlt as [Hy|[-> [Hm|[-> Hd]]]].
  - pose proof (within_year _ _ _ Hv) as Hin.
    destruct Hv as (Hy1 & _ & _), Hv' as (_ & Hm' & Hd').
    pose proof (days_before_year_succ y Hy1) as Hs.
    pose proof (days_before_year_le (y + 1) y' ltac:(lia) ltac:(lia)) as Hle.
    assert (0 <= days_before_month y' m').
    { unfold days_before_month.
      destruct (month_cases m' Hm') as [H|[H|[H|[H|[H|[H|[H|[H|[H|[H|[H|H]]]]]]]]]]];
        subst m'; simpl; destruct (is_leap y'); simpl; lia. }
    destruct (is_leap y); lia.
  - destruct Hv as (_ & Hm1 & Hd1), Hv' as (_ & Hm' & Hd').
    pose proof (next_month y' m m' Hm1 Hm' Hm). lia.
  - lia.
Qed.

(** *** Date strings in ISO form: the order of the strings is the order
    of the dates *)

Lemma digit_inv (c : ascii) (v : Z) :
  digit c = Some v -> 0 <= v <= 9 /\ Z.of_N (N_of_ascii c) = v + 48.
Proof.
  unfold digit. destruct ((48 <=? _) && (_ <=? 57)) eqn:E; [|discriminate].
  intros [= <-]. apply andb_prop in E as [E1 E2]. lia.
Qed.

Lemma is_digit_inv (c : ascii) : is_digit c = true -> exists v, digit c = Some v.
Proof. unfold is_digit. destruct (digit c); [eauto | discriminate]. Qed.

Lemma ascii_compare_digits (c c' : ascii) (v v' : Z) :
  digit c = Some v -> digit c' = Some v' -> Ascii.compare c c' = (v ?= v').
Proof.
  intros H H'. apply digit_inv in H as [_ H], H' as [_ H'].
  unfold Ascii.compare. rewrite <- N2Z.inj_compare, H, H'.
  rewrite (Z.add_comm v), (Z.add_comm v'). apply Z.add_compare_mono_l.
Qed.

Lemma digit_not_dash (c : ascii) (v : Z) : digit c = Some v -> Ascii.eqb c "-" = false.
Proof.
  intros H. destruct (Ascii.eqb_spec c "-") as [->|]; [discriminate H | reflexivity].
Qed.

Ltac iso_chars H s E :=
  unfold iso_format in H;
  destruct (list_ascii_of_string s)
    as [|? [|? [|? [|? [|? [|? [|? [|? [|? [|? [|? ?]]]]]]]]]]] eqn:E;
  cbv beta iota in H; try discriminate H;
  cbn [forallb] in H;
  repeat match goal with
         | Hd : _ && _ = true |- _ => apply andb_prop in Hd; destruct Hd
         | Hd : is_digit _ = true |- _ =>
             let v := fresh "v" in apply is_digit_inv in Hd; destruct Hd as [v Hd]
         | Hd : Ascii.eqb _ _ = true |- _ => apply Ascii.eqb_eq in Hd; subst
         end.

Lemma iso_key_lt (s t : string) :
  iso_format s = true -> iso_format t = true ->
  String.ltb s t = true -> iso_key s < iso_key t.
Proof.
  intros Hs Ht Hlt.
  iso_chars Hs s Es. iso_chars Ht t Et.
  unfold iso_key. rewrite Es, Et. cbn [List.map].
  repeat match goal with H : digit _ = Some _ |- _ => rewrite H end.
  rewrite <- (string_of_list_ascii_of_string s), <- (string_of_list_ascii_of_string t) in Hlt.
  rewrite Es, Et in Hlt. unfold String.ltb in Hlt. cbn [string_of_list_ascii String.compare] in Hlt.
  repeat match goal with
         | H : digit ?c = Some ?v, H' : digit ?c' = Some ?v' |- _ =>
             match type of Hlt with
             | context [Ascii.compare c c'] =>
                 rewrite (ascii_compare_digits c c' v v' H H') in Hlt
             end
         end.
  change (Ascii.compare "-" "-") with Eq in Hlt. cbv iota in Hlt.
  repeat match goal with H : digit _ = Some _ |- _ => apply digit_inv in H as [? _] end.
  repeat match type of Hlt with
         | context [?a ?= ?b] => destruct (Z.compare_spec a b); try discriminate Hlt
         end; lia.
Qed.

(** Parsing a string in ISO form: the date of its year, month and day. *)
Lemma strptime_iso (s : string) (a : date) :
  iso_format s = true -> strptime_ymd s = Ok a ->
  exists y m d, valid_ymd y m d /\ a = ymd2ord y m d
                /\ iso_key s = y * 10000 + m * 100 + d /\ d <= 31.
Proof.
  intros Hs Hparse. iso_chars Hs s Es.
  unfold strptime_ymd in Hparse. unfold iso_key. rewrite Es in *. cbn [List.map].
  match goal with H : digit ?c = Some _ |- _ =>
    match type of Hparse with context [Ascii.eqb c "-"] =>
      rewrite (digit_not_dash _ _ H) in Hparse end end.
  change (Ascii.eqb "-" "-") with true in Hparse. cbv iota in Hparse.
  unfold parse_year, parse_month, parse_day in Hparse.
  repeat match goal with H : digit _ = Some _ |- _ =>
           rewrite H in *; apply digit_inv in H as [? _] end.
  destruct (match v2 with 0 => _ | Z.pos _ => _ | Z.neg _ => _ end)
    as [month|] eqn:Em; [|discriminate Hparse].
  destruct (match v0 with 0 => _ | Z.pos _ => _ | Z.neg _ => _ end)
    as [day|] eqn:Ed; [|discriminate Hparse].
  assert (Hmonth : month = v2 * 10 + v1 /\ 1 <= month <= 12).
  { assert (Hc : v2 = 0 \/ v2 = 1 \/ 2 <= v2 <= 9) by lia.
    destruct Hc as [->|[->|Hc]].
    - destruct (1 <=? v1) eqn:E; [|discriminate Em]. injection Em as <-. lia.
    - destruct (v1 <=? 2) eqn:E; [|discriminate Em]. injection Em as <-. lia.
    - destruct v2 as [|[p|p|]|]; try lia; try discriminate Em;
        destruct p; discriminate Em. }
  assert (Hday : day = v0 * 10 + v /\ 1 <= day <= 31).
  { assert (Hc : v0 = 0 \/ v0 = 1 \/ v0 = 2 \/ v0 = 3 \/ 4 <= v0 <= 9) by lia.
    destruct Hc as [->|[->|[->|[->|Hc]]]].
    - destruct (1 <=? v) eqn:E; [|discriminate Ed]. injection Ed as <-. lia.
    - injection Ed as <-. lia.
    - injection Ed as <-. lia.
    - destruct (v <=? 1) eqn:E; [|discriminate Ed]. injection Ed as <-. lia.
    - destruct v0 as [|[[p|p|]|[p|p|]|]|]; try lia; try discriminate Ed;
        destruct p; discriminate Ed. }
  clear Em Ed. unfold make_date in Hparse.
  destruct ((1 <=? _) && (_ <=? _)) eqn:E; [|discriminate Hparse].
  injection Hparse as <-. apply andb_prop in E as [E1 E2].
  exists (v6 * 1000 + v5 * 100 + v4 * 10 + v3), month, day.
  unfold valid_ymd. repeat split; lia.
Qed.

(** For two dates written in ISO form, the order of the strings is the
    order of the dates. *)
Lemma iso_order (s t : string) (a b : date) :
  iso_format s = true -> iso_format t = true ->
  strptime_ymd s = Ok a -> strptime_ymd t = Ok b ->
  String.ltb s t = true -> a < b.
Proof.
  intros Hs Ht Ha Hb Hlt.
  pose proof (iso_key_lt s t Hs Ht Hlt) as Hkey.
  destruct (strptime_iso s a Hs Ha) as (y & m & d & Hv & -> & Hk & Hd).
  destruct (strptime_iso t b Ht Hb) as (y' & m' & d' & Hv' & -> & Hk' & Hd').
  apply ymd2ord_lt; try assumption.
  destruct Hv as (Hy & Hm & Hd1), Hv' as (Hy' & Hm' & Hd1'). lia.
Qed.

(** A log of ISO date strings that is ascending as Python sorts it is
    ascending as a list of dates. *)
Lemma iso_ascending_dates (l : list hashable) (ds : list date) :
  py_ascending l -> Forall is_iso l -> mapM strptime l = Ok ds -> increasing ds.
Proof.
  unfold py_ascending, increasing, ascending.
  intros Hasc Hiso. revert ds.
  induction Hiso as [|h l Hh Hiso IH]; intros ds Hparse.
  - injection Hparse as <-. constructor.
  - simpl in Hparse. inv_bind Hparse. inv_bind Hparse. injection Hparse as <-.
    apply Sorted_inv in Hasc as [Hasc Hhd].
    constructor; [now apply IH|].
    destruct Hiso as [|h' l Hh' Hiso]; simpl in Ha0.
    + injection Ha0 as <-. constructor.
    + inv_bind Ha0. inv_bind Ha0. injection Ha0 as <-. constructor.
      apply HdRel_inv in Hhd. destruct Hh as (s & -> & Hs), Hh' as (t & -> & Ht).
      simpl in Hhd, Ha, Ha1. injection Hhd as Hlt.
      unfold date_ltb. f_equal. apply Z.ltb_lt.
      exact (iso_order s t a a1 Hs Ht Ha Ha1 Hlt).
Qed.

Lemma increasing_NoDup (ds : list date) : increasing ds -> List.NoDup ds.
Proof.
  intros H. apply Sorted_StronglySorted in H.
  - induction H as [|a l Hl IH Ha]; constructor; [|assumption].
    intros Hin. rewrite List.Forall_forall in Ha. specialize (Ha a Hin).
    unfold date_ltb in Ha. injection Ha as Ha. lia.
  - intros x y z. unfold date_ltb. intros [= H1] [= H2]. f_equal. lia.
Qed.

(** C9.  Whatever list [load_streak_dates] returns is strictly ascending
    in Python's order and has no duplicate entry; for a record that lists
    any strings, in any order and with any repetitions, it returns such a
    list with exactly the stored strings; and when the entries are dates
    in the ISO form that the application writes, the dates themselves are
    strictly ascending, with no date twice. *)
Theorem load_streak_dates_sorted_unique :
  (forall (s : store) (l : list hashable),
     load_streak_dates s = Ok l -> py_ascending l /\ List.NoDup l)
  /\ (forall dates_str : list string,
        exists l, load_streak_dates (store_of dates_str) = Ok l
                  /\ py_ascending l /\ List.NoDup l
                  /\ forall d, In (HStr d) l <-> In d dates_str)
  /\ (forall (s : store) (l : list hashable) (ds : list date),
        load_streak_dates s = Ok l -> Forall is_iso l ->
        mapM strptime l = Ok ds ->
        increasing ds /\ List.NoDup ds).
Proof.
  assert (H1 : forall s l, load_streak_dates s = Ok l -> py_ascending l /\ List.NoDup l).
  { intros s l H. apply load_streak_dates_Ok in H as [Hs Hnd].
    split; [assumption | now apply key_of_NoDup]. }
  split; [exact H1|]. split.
  - intros dates_str.
    destruct (py_sorted_total py_lt is_str (py_set py_eq (List.map HStr dates_str)))
      as [l Hl].
    + apply py_lt_str.
    + apply List.Forall_forall. intros h Hh. apply py_set_incl in Hh.
      apply in_map_iff in Hh as (d & <- & _). now exists d.
    + exists l. rewrite load_store_of. split; [assumption|].
      destruct (H1 (store_of dates_str) l) as [Hs Hnd];
        [now rewrite load_store_of|].
      repeat split; try assumption.
      * intros Hd.
        apply (Permutation_in _ (Permutation_sym (py_sorted_perm _ _ _ Hl))) in Hd.
        apply py_set_incl in Hd. apply in_map_iff in Hd as (d' & [= ->] & Hd). exact Hd.
      * intros Hd.
        assert (Hk : In (KStr d) (List.map key_of (py_set py_eq (List.map HStr dates_str)))).
        { apply (py_set_keys py_eq key_of py_eq_key). rewrite List.map_map. simpl.
          apply in_map_iff. eauto. }
        apply in_map_iff in Hk as (h & E & Hh). apply key_of_str in E. subst h.
        eapply Permutation_in; [exact (py_sorted_perm _ _ _ Hl) | exact Hh].
  - intros s l ds Hload Hiso Hparse.
    destruct (H1 s l Hload) as [Hasc _].
    pose proof (iso_ascending_dates l ds Hasc Hiso Hparse) as Hinc.
    split; [assumption | now apply increasing_NoDup].
Qed.

(** The witness: a stored sequence that is unsorted and repeats a date. *)
Lemma load_streak_dates_sorted_unique_witness :
  load_streak_dates (store_of ["2024-01-04"; "2024-01-03"; "2024-01-04"]%string)
  = Ok [HStr "2024-01-03"; HStr "2024-01-04"]
  /\ (py_ascending [HStr "2024-01-03"; HStr "2024-01-04"]
      /\ List.NoDup [HStr "2024-01-03"; HStr "2024-01-04"])
  /\ (increasing [738888; 738889] /\ List.NoDup [738888; 738889]).
Proof.
  split; [reflexivity|]. split.
  - apply (proj1 load_streak_dates_sorted_unique
             (store_of ["2024-01-04"; "2024-01-03"; "2024-01-04"]%string)).
    reflexivity.
  - apply (proj2 (proj2 load_streak_dates_sorted_unique)
             (store_of ["2024-01-04"; "2024-01-03"; "2024-01-04"]%string)
             [HStr "2024-01-03"; HStr "2024-01-04"]).
    + reflexivity.
    + repeat constructor; eexists; split; reflexivity.
    + reflexivity.
Defined.

(** *** The writer *)


Lemma persist_absent (d : string) (s : store) (dates dates' : list hashable) :
  load_streak_dates s = Ok dates -> ~ In (HStr d) dates ->
  py_sorted py_lt (dates ++ [HStr d]) = Ok dates' ->
  persist d s = dump_dates dates'
  /\ load_streak_dates (dump_dates dates') = Ok dates'
  /\ py_ascending dates'
  /\ Permutation (dates ++ [HStr d]) dates'.
Proof.
  intros Hload Hin Hsort. unfold persist, save_new_log. rewrite Hload.
  destruct (py_in py_eq (HStr d) dates) eqn:E; [now apply py_in_str in E|].
  simpl. rewrite Hsort. simpl.
  destruct (load_streak_dates_Ok _ _ Hload) as [_ Hnd].
  assert (Hnd' : List.NoDup (List.map key_of (dates ++ [HStr d]))).
  { rewrite List.map_app. simpl. apply List.NoDup_app; repeat split.
    - assumption.
    - repeat constructor. intros [].
    - intros k Hk [<-|[]].
      apply in_map_iff in Hk as (h & Eh & Hh). apply key_of_str in Eh. now subst. }
  pose proof (py_sorted_perm _ _ _ Hsort) as Hperm.
  assert (Hasc : py_ascending dates')
    by (eapply (py_sorted_ascending py_lt key_of py_lt_connex); eauto).
  repeat split; try assumption.
  apply load_dump_dates; [assumption|].
  eapply Permutation_NoDup; [|exact Hnd']. now apply Permutation_map.
Qed.



Lemma In_dec_str (d : string) (l : list hashable) : {In (HStr d) l} + {~ In (HStr d) l}.
Proof.
  destruct (py_in py_eq (HStr d) l) eqn:E.
  - left. now apply py_in_str.
  - right. intros H. apply py_in_str in H. congruence.
Qed.




(** *** Longest streak *)

Lemma increasing_tail_above (a : date) (l : list date) :
  increasing (a :: l) -> forall x, In x l -> a < x.
Proof.
  intros H. apply Sorted_StronglySorted in H.
  - apply StronglySorted_inv in H as [_ H]. rewrite List.Forall_forall in H.
    intros x Hx. specialize (H x Hx). unfold date_ltb in H. injection H as H. lia.
  - intros x y z. unfold date_ltb. intros [= H1] [= H2]. f_equal. lia.
Qed.

Lemma scan_pairs_spec (rest : list date) (a longest cur lg cr : Z) :
  increasing (a :: rest) -> 1 <= cur -> 0 <= longest ->
  scan_pairs (a :: rest) longest cur = (lg, cr) ->
  longest <= Z.max lg cr /\ 1 <= Z.max lg cr
  /\ (Z.max lg cr = longest
      \/ exists b, forall i, 0 <= i < Z.max lg cr -> seen_or_ahead a cur rest (b + i))
  /\ (forall b k, (forall i, 0 <= i < k -> seen_or_ahead a cur rest (b + i)) ->
                  k <= Z.max lg cr).
Proof.
  revert a longest cur.
  induction rest as [|b rest IH]; intros a longest cur Hinc Hcur Hlong Hscan.
  - simpl in Hscan. injection Hscan as <- <-.
    split; [lia|]. split; [lia|]. split.
    + destruct (Z.max_spec longest cur) as [[_ ->]|[_ ->]]; [|now left].
      right. exists (a - cur + 1). intros i Hi. left. lia.
    + intros b k Hk. destruct (Z_lt_le_dec 0 k) as [Hpos|]; [|lia].
      destruct (Hk 0) as [H0|[]]; [lia|].
      destruct (Hk (k - 1)) as [H1|[]]; [lia|]. lia.
  - pose proof (increasing_tail_above _ _ Hinc) as Habove.
    assert (Hinc' : increasing (b :: rest)) by (now apply Sorted_inv in Hinc).
    pose proof (increasing_tail_above _ _ Hinc') as Habove'.
    assert (Hab : a < b) by (apply Habove; now left).
    change (scan_pairs (a :: b :: rest) longest cur)
      with (if b - a =? 1 then scan_pairs (b :: rest) longest (cur + 1)
            else scan_pairs (b :: rest) (Z.max longest cur) 1) in Hscan.
    destruct (b - a =? 1) eqn:E.
    + apply Z.eqb_eq in E.
      destruct (IH b longest (cur + 1) Hinc' ltac:(lia) Hlong Hscan) as (H1 & H2 & H3 & H4).
      assert (Hsame : forall x,
                 seen_or_ahead b (cur + 1) rest x <-> seen_or_ahead a cur (b :: rest) x).
      { intros x. unfold seen_or_ahead. simpl. split.
        - intros [H|H]; [|auto]. destruct (Z.eq_dec x b); [auto|left; lia].
        - intros [H|[H|H]]; [left; lia|left; lia|auto]. }
      split; [assumption|]. split; [assumption|]. split.
      * destruct H3 as [H3|[c H3]]; [now left|]. right. exists c.
        intros i Hi. apply Hsame. now apply H3.
      * intros c k Hk. apply (H4 c). intros i Hi. apply Hsame. now apply Hk.
    + apply Z.eqb_neq in E.
      destruct (IH b (Z.max longest cur) 1 Hinc' ltac:(lia) ltac:(lia) Hscan)
        as (H1 & H2 & H3 & H4).
      assert (Hsub : forall x,
                 seen_or_ahead b 1 rest x -> seen_or_ahead a cur (b :: rest) x).
      { intros x. unfold seen_or_ahead. simpl. intros [H|H]; [|auto].
        right. left. lia. }
      assert (Hsplit : forall x, seen_or_ahead a cur (b :: rest) x ->
                a - cur < x <= a \/ (a + 1 < x /\ seen_or_ahead b 1 rest x)).
      { intros x. unfold seen_or_ahead. simpl. intros [H|[H|H]]; [now left| |].
        - right. split; [lia|]. left. lia.
        - right. specialize (Habove' x H). split; [lia|]. now right. }
      split; [lia|]. split; [lia|]. split.
      * destruct H3 as [H3|[c H3]].
        -- destruct (Z.max_spec longest cur) as [[_ Hm]|[_ Hm]]; [|left; lia].
           right. exists (a - cur + 1). intros i Hi. left. lia.
        -- right. exists c. intros i Hi. apply Hsub. now apply H3.
      * intros c k Hk. destruct (Z_lt_le_dec 0 k) as [Hpos|]; [|lia].
        destruct (Z_le_gt_dec c a) as [Hlo|Hhi].
        -- (* the run starts at or before [a]: it cannot reach day [a + 1] *)
           destruct (Z_lt_le_dec (a + 1 - c) k) as [Hreach|Hshort].
           ++ destruct (Hsplit _ (Hk (a + 1 - c) ltac:(lia))) as [H|[H _]]; lia.
           ++ destruct (Hsplit _ (Hk 0 ltac:(lia))) as [H|[H _]]; lia.
        -- (* the run starts after [a]: it lies in what is still ahead *)
           apply (H4 c). intros i Hi.
           destruct (Hsplit _ (Hk i Hi)) as [H|[_ H]]; [lia | exact H].
Qed.

Lemma unique_dates_of (parsed : list date) :
  exists u, py_sorted date_ltb (py_set Z.eqb parsed) = Ok u
            /\ increasing u /\ forall x, In x u <-> In x parsed.
Proof.
  destruct (py_sorted_total date_ltb (fun _ => True) (py_set Z.eqb parsed)) as [u Hu].
  - intros a b _ _. unfold date_ltb. eauto.
  - apply List.Forall_forall. auto.
  - exists u. split; [assumption|]. split.
    + apply (py_sorted_ascending date_ltb id date_ltb_connex _ _) in Hu; [assumption|].
      apply (py_set_NoDup Z.eqb id Zeqb_key).
    + intros x. rewrite <- (py_set_date parsed x). apply py_sorted_perm in Hu.
      split; intros H; [exact (Permutation_in _ (Permutation_sym Hu) H)
                       | exact (Permutation_in _ Hu H)].
Qed.

Lemma longest_run_nil : longest_run [] 0.
Proof.
  split; [lia|]. split.
  - exists 0. intros i Hi. lia.
  - intros a k Hk. destruct (Z_lt_le_dec 0 k) as [Hpos|]; [|assumption].
    destruct (Hk 0). lia.
Qed.

Lemma longest_run_unique (ds : list date) (n m : Z) :
  longest_run ds n -> longest_run ds m -> n = m.
Proof.
  intros (_ & [a Ha] & Hn) (_ & [b Hb] & Hm).
  apply Hm in Ha. apply Hn in Hb. lia.
Qed.

Lemma longest_streak_of_dates (dates_str : list hashable) (ds : list date) :
  mapM strptime dates_str = Ok ds ->
  exists n, calculate_longest_streak dates_str = Ok n /\ longest_run ds n.
Proof.
  intros Hparse. destruct dates_str as [|d0 dates_str].
  - injection Hparse as <-. exists 0. split; [reflexivity | apply longest_run_nil].
  - unfold calculate_longest_streak. rewrite Hparse. simpl bind.
    destruct (unique_dates_of ds) as (u & -> & Hinc & Hmem). simpl bind.
    destruct u as [|a rest].
    + (* the parsed list is not empty *)
      simpl in Hparse. inv_bind Hparse. inv_bind Hparse. injection Hparse as <-.
      destruct (proj2 (Hmem a) (or_introl eq_refl)).
    + destruct (scan_pairs (a :: rest) 0 1) as [lg cr] eqn:Hscan.
      destruct (scan_pairs_spec rest a 0 1 lg cr Hinc ltac:(lia) ltac:(lia) Hscan)
        as (H1 & H2 & H3 & H4).
      assert (Hset : forall x, seen_or_ahead a 1 rest x <-> In x ds).
      { intros x. rewrite <- Hmem. unfold seen_or_ahead. simpl. split.
        - intros [H|H]; [left; lia | now right].
        - intros [H|H]; [left; lia | now right]. }
      exists (Z.max lg cr). split; [reflexivity|]. split; [lia|]. split.
      * destruct H3 as [H3|[b H3]]; [lia|]. exists b. intros i Hi.
        apply Hset. now apply H3.
      * intros b k Hk. apply (H4 b). intros i Hi. apply Hset. now apply Hk.
Qed.

(** C2.  For every list of date strings, [calculate_longest_streak]
    returns the length of the longest run of consecutive calendar days
    among the dates: some run of that length is logged in full and no run
    that is logged in full is longer.  The empty list gives 0, and
    2024-01-01, 2024-01-02, 2024-01-03, 2024-01-10 give 3. *)
Theorem longest_streak_is_longest_run :
  (forall (dates_str : list hashable) (ds : list date),
     mapM strptime dates_str = Ok ds ->
     exists n, calculate_longest_streak dates_str = Ok n /\ longest_run ds n)
  /\ calculate_longest_streak [] = Ok 0
  /\ calculate_longest_streak
       (List.map HStr ["2024-01-01"; "2024-01-02"; "2024-01-03"; "2024-01-10"]%string)
     = Ok 3.
Proof.
  split; [exact longest_streak_of_dates|]. split; reflexivity.
Qed.

(** The witness: the four dates of the example, stored out of order. *)
Lemma longest_streak_is_longest_run_witness :
  exists n,
    calculate_longest_streak
      (List.map HStr ["2024-01-10"; "2024-01-02"; "2024-01-01"; "2024-01-03"]%string)
    = Ok n
    /\ longest_run [738895; 738887; 738886; 738888] n.
Proof.
  apply (proj1 longest_streak_is_longest_run). reflexivity.
Defined.

(** *** Current streak *)

Lemma count_back_run (all_dates : list date) (k : nat) :
  forall (check_date : date) (streak : Z),
    (forall i, 0 <= i < Z.of_nat k -> In (check_date - i) all_dates) ->
    ~ In (check_date - Z.of_nat k) all_dates ->
    date_min <= check_date - Z.of_nat k ->
    count_back (Z.to_nat (check_date - date_min)) all_dates check_date streak
    = Ok (streak + Z.of_nat k).
Proof.
  unfold date_min. induction k as [|k IH]; intros c streak Hrun Hmiss Hmin.
  - replace (c - Z.of_nat 0) with c in Hmiss by lia.
    destruct (Z.to_nat (c - 1)); simpl;
      (destruct (py_in Z.eqb c all_dates) eqn:E;
       [apply py_in_date in E; contradiction | f_equal; lia]).
  - assert (Hc : In c all_dates).
    { replace c with (c - 0) by lia. apply Hrun. lia. }
    apply py_in_date in Hc.
    replace (Z.to_nat (c - 1)) with (S (Z.to_nat (c - 1 - 1))) by lia.
    simpl. rewrite Hc. rewrite IH.
    + f_equal. lia.
    + intros i Hi. replace (c - 1 - i) with (c - (i + 1)) by lia. apply Hrun. lia.
    + replace (c - 1 - Z.of_nat k) with (c - Z.of_nat (S k)) by lia. assumption.
    + lia.
Qed.

Lemma count_back_Ok (all_dates : list date) (room : nat) :
  forall (check_date : date) (streak r : Z),
    count_back room all_dates check_date streak = Ok r ->
    streak <= r /\ forall i, 0 <= i < r - streak -> In (check_date - i) all_dates.
Proof.
  induction room as [|room IH]; intros c streak r; simpl;
    destruct (py_in Z.eqb c all_dates) eqn:E; try discriminate.
  - intros [= <-]. split; [lia|]. intros i Hi. lia.
  - intros H. apply IH in H as [H1 H2]. split; [lia|].
    intros i Hi. destruct (Z.eq_dec i 0) as [->|Hne].
    + replace (c - 0) with c by lia. now apply py_in_date.
    + replace (c - i) with (c - 1 - (i - 1)) by lia. apply H2. lia.
  - intros [= <-]. split; [lia|]. intros i Hi. lia.
Qed.

Lemma py_in_all_dates (d : date) (ds : list date) :
  py_in Z.eqb d (py_set Z.eqb ds) = true <-> In d ds.
Proof. now rewrite py_in_date, py_set_date. Qed.

Lemma py_in_all_dates_false (d : date) (ds : list date) :
  py_in Z.eqb d (py_set Z.eqb ds) = false <-> ~ In d ds.
Proof.
  rewrite <- py_in_all_dates. destruct (py_in Z.eqb d (py_set Z.eqb ds)); split; congruence.
Qed.

(** The body of [calculate_current_streak] once the file has loaded as a
    non-empty list of date strings and yesterday is a date. *)
Lemma calculate_current_streak_unfold (s : store) (today : date)
    (l : list hashable) (ds : list date) :
  load_streak_dates s = Ok l -> l <> [] -> mapM strptime l = Ok ds ->
  date_min <= today - 1 ->
  calculate_current_streak s today =
    let all_dates := py_set Z.eqb ds in
    let counted (check_date : date) :=
      let! current_streak :=
        count_back (Z.to_nat (check_date - date_min)) all_dates check_date 0 in
      let! longest_streak := calculate_longest_streak l in
      Ok (current_streak, longest_streak) in
    if py_in Z.eqb today all_dates then counted today
    else if py_in Z.eqb (today - 1) all_dates then counted (today - 1)
    else let! longest_streak := calculate_longest_streak l in Ok (0, longest_streak).
Proof.
  intros Hload Hne Hparse Hy. unfold calculate_current_streak.
  rewrite Hload. simpl bind. destruct l as [|x l]; [congruence|].
  rewrite Hparse. simpl bind. unfold date_sub.
  destruct (today - 1 <? date_min) eqn:E; [lia|]. reflexivity.
Qed.

Lemma backward_run_count (ds : list date) (d : date) (n : Z) :
  backward_run ds d n ->
  count_back (Z.to_nat (d - date_min)) (py_set Z.eqb ds) d 0 = Ok n.
Proof.
  intros ((Hn & Hrun & Hmiss) & Hmin).
  rewrite (count_back_run _ (Z.to_nat n)); rewrite ?Z2Nat.id by assumption.
  - reflexivity.
  - intros i Hi. apply py_set_date. now apply Hrun.
  - now rewrite py_set_date.
  - assumption.
Qed.

Lemma current_streak_of_dates (s : store) (today : date) (ds : list date) :
  logged_dates s = Ok ds ->
  exists longest,
    longest_of s = Ok longest /\ longest_run ds longest
    /\ (forall n, In today ds -> backward_run ds today n ->
                  calculate_current_streak s today = Ok (n, longest))
    /\ (forall n, ~ In today ds -> In (today - 1) ds ->
                  backward_run ds (today - 1) n ->
                  calculate_current_streak s today = Ok (n, longest))
    /\ (~ In today ds -> ~ In (today - 1) ds ->
        ds = [] \/ date_min <= today - 1 ->
        calculate_current_streak s today = Ok (0, longest)).
Proof.
  intros Hds. unfold logged_dates in Hds. inv_bind Hds. rename a into l, Ha into Hload.
  destruct (longest_streak_of_dates l ds Hds) as (longest & Hlong & Hrun).
  exists longest. split; [unfold longest_of; now rewrite Hload|]. split; [assumption|].
  destruct l as [|x l].
  - (* an empty log: no date is present *)
    injection Hds as <-. injection Hlong as <-.
    repeat split; try (intros; contradiction).
    intros _ _ _. unfold calculate_current_streak. now rewrite Hload.
  - assert (Hne : x :: l <> []) by discriminate.
    pose proof (fun Hy => calculate_current_streak_unfold s today _ _ Hload Hne Hds Hy) as Hccs.
    cbv zeta in Hccs. repeat split.
    + intros n Htoday Hback.
      assert (Hy : date_min <= today - 1).
      { destruct Hback as ((Hn & _ & Hmiss) & Hmin).
        destruct (Z.eq_dec n 0) as [->|]; [|lia].
        replace (today - 0) with today in Hmiss by lia. contradiction. }
      rewrite (Hccs Hy). rewrite (proj2 (py_in_all_dates _ _) Htoday).
      now rewrite (backward_run_count _ _ _ Hback), Hlong.
    + intros n Htoday Hyest Hback.
      assert (Hy : date_min <= today - 1) by (destruct Hback as ((? & _) & ?); lia).
      rewrite (Hccs Hy). rewrite (proj2 (py_in_all_dates_false _ _) Htoday).
      rewrite (proj2 (py_in_all_dates _ _) Hyest).
      now rewrite (backward_run_count _ _ _ Hback), Hlong.
    + intros Htoday Hyest [Hnil|Hy].
      { subst ds. simpl in Hds. inv_bind Hds. inv_bind Hds. discriminate. }
      rewrite (Hccs Hy).
      rewrite (proj2 (py_in_all_dates_false _ _) Htoday).
      rewrite (proj2 (py_in_all_dates_false _ _) Hyest).
      now rewrite Hlong.
Qed.

Lemma count_back_overflow (all_dates : list date) (room : nat) :
  forall (check_date : date) (streak : Z),
    check_date = date_min + Z.of_nat room ->
    (forall d, date_min <= d <= check_date -> In d all_dates) ->
    count_back room all_dates check_date streak = Raise OverflowError.
Proof.
  induction room as [|room IH]; intros c streak Hc Hall; simpl;
    rewrite (proj2 (py_in_date c all_dates)) by (apply Hall; unfold date_min in *; lia).
  - reflexivity.
  - apply IH; [lia|]. intros d Hd. apply Hall. lia.
Qed.

(** When every day from 0001-01-01 to today is logged, the count runs into
    the first day of the calendar, whatever today is. *)
Lemma current_streak_overflow (s : store) (today : date) (ds : list date) :
  logged_dates s = Ok ds -> date_min <= today ->
  (forall d, date_min <= d <= today -> In d ds) ->
  calculate_current_streak s today = Raise OverflowError.
Proof.
  intros Hds Htoday Hall. unfold logged_dates in Hds. inv_bind Hds.
  rename a into l, Ha into Hload.
  assert (Hin : In today ds) by (apply Hall; lia).
  unfold calculate_current_streak. rewrite Hload. simpl bind.
  destruct l as [|x l]; [injection Hds as <-; destruct Hin|].
  rewrite Hds. simpl bind. unfold date_sub.
  destruct (today - 1 <? date_min) eqn:E; [reflexivity|]. simpl bind.
  rewrite (proj2 (py_in_all_dates today ds) Hin).
  rewrite (count_back_overflow _ (Z.to_nat (today - date_min))).
  - reflexivity.
  - lia.
  - intros d Hd. apply py_set_date. now apply Hall.
Qed.

(** C1, as stated, fails at the first day of the calendar.  With the log
    0001-01-01 (day 1): read on 0001-01-01, today is logged and one day
    is counted, and read on 0001-01-02, yesterday is logged and one day is
    counted; in both cases the loop then steps to the day before
    [date.min] and the call ends in an [OverflowError] instead of (1, 1).
    Read on 0001-01-01 with any other log, neither today nor yesterday is
    logged, and computing yesterday raises the same error. *)
Lemma current_streak_overflow_at_date_min :
  logged_dates (store_of ["0001-01-01"]%string) = Ok [1]
  /\ (In 1 [1] /\ counted_back [1] 1 1
      /\ calculate_current_streak (store_of ["0001-01-01"]%string) 1
         = Raise OverflowError)
  /\ (~ In 2 [1] /\ In (2 - 1) [1] /\ counted_back [1] (2 - 1) 1
      /\ calculate_current_streak (store_of ["0001-01-01"]%string) 2
         = Raise OverflowError)
  /\ (logged_dates (store_of ["2024-01-01"]%string) = Ok [738886]
      /\ ~ In 1 [738886] /\ ~ In (1 - 1) [738886]
      /\ calculate_current_streak (store_of ["2024-01-01"]%string) 1
         = Raise OverflowError)
  /\ ~ (forall (s : store) (today : date) (ds : list date) (n : Z),
          logged_dates s = Ok ds -> In today ds -> counted_back ds today n ->
          exists longest, calculate_current_streak s today = Ok (n, longest)).
Proof.
  assert (Hcount : counted_back [1] 1 1).
  { unfold counted_back. simpl. repeat split; lia. }
  split; [reflexivity|]. split; [|split; [|split]].
  - split; [now left|]. split; [exact Hcount | reflexivity].
  - split; [simpl; lia|]. split; [now left|]. split; [exact Hcount | reflexivity].
  - split; [reflexivity|]. simpl. repeat split; lia.
  - intros Hall.
    destruct (Hall (store_of ["0001-01-01"]%string) 1 [1] 1 eq_refl
                (or_introl eq_refl) Hcount) as [longest H].
    discriminate H.
Qed.

(** C1, amended.  For a file that holds the dates [ds] and a current date
    [today]:
    - if today is logged, the current streak is the number of logged days
      counted backward from today up to the first missing day, provided
      that day is a date of the calendar (the run does not reach
      0001-01-01);
    - if today is not logged but yesterday is, it is that count from
      yesterday, under the same proviso;
    - if neither is logged, it is 0, provided the log is empty or
      yesterday is a date of the calendar (today is not 0001-01-01);
    and in each case the second component is the longest streak of [ds].
    With today = 2024-01-05 and the log 2024-01-03, 2024-01-04 the result
    is (2, 2). *)
Theorem current_streak_cases :
  (forall (s : store) (today : date) (ds : list date),
     logged_dates s = Ok ds ->
     exists longest,
       longest_of s = Ok longest /\ longest_run ds longest
       /\ (forall n, In today ds -> backward_run ds today n ->
                     calculate_current_streak s today = Ok (n, longest))
       /\ (forall n, ~ In today ds -> In (today - 1) ds ->
                     backward_run ds (today - 1) n ->
                     calculate_current_streak s today = Ok (n, longest))
       /\ (~ In today ds -> ~ In (today - 1) ds ->
           ds = [] \/ date_min <= today - 1 ->
           calculate_current_streak s today = Ok (0, longest)))
  /\ calculate_current_streak (store_of ["2024-01-03"; "2024-01-04"]%string)
       (ymd2ord 2024 1 5) = Ok (2, 2).
Proof.
  split; [exact current_streak_of_dates | reflexivity].
Qed.

(** The witness: the log 2024-01-03, 2024-01-04 read on 2024-01-05
    (day 738890); yesterday is logged, and the first missing day is
    2024-01-02. *)
Lemma current_streak_cases_witness :
  exists longest,
    longest_of (store_of ["2024-01-03"; "2024-01-04"]%string) = Ok longest
    /\ calculate_current_streak (store_of ["2024-01-03"; "2024-01-04"]%string) 738890
       = Ok (2, longest).
Proof.
  destruct (proj1 current_streak_cases
              (store_of ["2024-01-03"; "2024-01-04"]%string) 738890
              [738888; 738889] eq_refl)
    as (longest & Hlong & _ & _ & Hyesterday & _).
  exists longest. split; [exact Hlong|].
  apply Hyesterday.
  - simpl. lia.
  - simpl. lia.
  - unfold backward_run, counted_back, date_min. simpl. repeat split; lia.
Defined.

Lemma current_streak_bounded (s : store) (today : date) (current longest : Z) :
  calculate_current_streak s today = Ok (current, longest) -> current <= longest.
Proof.
  intros H. unfold calculate_current_streak in H.
  inv_bind H. rename a into l, Ha into Hload.
  destruct l as [|x l]; [injection H as <- <-; lia|].
  inv_bind H. rename a into ds, Ha into Hparse.
  destruct (longest_streak_of_dates _ _ Hparse) as (n & Hn & Hpos & _ & Hmax).
  inv_bind H. rename a into yesterday.
  assert (Hcounted : forall check_date,
    (let! current_streak :=
       count_back (Z.to_nat (check_date - date_min)) (py_set Z.eqb ds) check_date 0 in
     let! longest_streak := calculate_longest_streak (x :: l) in
     Ok (current_streak, longest_streak)) = Ok (current, longest) ->
    current <= longest).
  { intros c Hc.
    destruct (count_back _ _ c 0) as [cs|] eqn:Hcb; [|discriminate].
    rewrite Hn in Hc. injection Hc as -> ->.
    apply count_back_Ok in Hcb as [H0 Hrun].
    apply (Hmax (c - current + 1)). intros i Hi.
    replace (c - current + 1 + i) with (c - (current - 1 - i)) by lia.
    apply py_set_date. apply Hrun. lia. }
  destruct (py_in Z.eqb today (py_set Z.eqb ds)); [now apply (Hcounted today)|].
  destruct (py_in Z.eqb yesterday (py_set Z.eqb ds)); [now apply (Hcounted yesterday)|].
  rewrite Hn in H. injection H as <- <-. assumption.
Qed.

Lemma count_back_total (all_dates : list date) (room : nat) :
  forall (check_date : date) (streak : Z),
    check_date = date_min + Z.of_nat room -> ~ In date_min all_dates ->
    exists r, count_back room all_dates check_date streak = Ok r.
Proof.
  induction room as [|room IH]; intros c streak Hc Hmin; simpl;
    destruct (py_in Z.eqb c all_dates) eqn:E; eauto.
  - apply py_in_date in E. replace c with date_min in E by lia. contradiction.
  - apply IH; [lia | assumption].
Qed.

(** A pair is returned whenever the log is readable and holds date
    strings, and either it is empty or yesterday is a date and 0001-01-01
    is not logged. *)
Lemma calculate_current_streak_returns (s : store) (today : date) (ds : list date) :
  logged_dates s = Ok ds ->
  ds = [] \/ (date_min <= today - 1 /\ ~ In date_min ds) ->
  exists current longest, calculate_current_streak s today = Ok (current, longest).
Proof.
  intros Hds Hok. unfold logged_dates in Hds. inv_bind Hds.
  rename a into l, Ha into Hload.
  destruct l as [|x l].
  - exists 0, 0. unfold calculate_current_streak. now rewrite Hload.
  - destruct Hok as [->|[Hy Hmin]];
      [simpl in Hds; inv_bind Hds; inv_bind Hds; discriminate|].
    destruct (longest_streak_of_dates _ _ Hds) as (longest & Hlong & _).
    rewrite (calculate_current_streak_unfold s today _ _ Hload ltac:(discriminate) Hds Hy).
    cbv zeta. rewrite Hlong.
    assert (Hcount : forall c, date_min <= c ->
              exists r, count_back (Z.to_nat (c - date_min)) (py_set Z.eqb ds) c 0 = Ok r).
    { intros c Hc. apply count_back_total; [lia | now rewrite py_set_date]. }
    destruct (py_in Z.eqb today (py_set Z.eqb ds)).
    + destruct (Hcount today ltac:(lia)) as [r ->]. simpl. eauto.
    + destruct (py_in Z.eqb (today - 1) (py_set Z.eqb ds)).
      * destruct (Hcount (today - 1) Hy) as [r ->]. simpl. eauto.
      * simpl. eauto.
Qed.

(** C10.  Whenever [calculate_current_streak] returns a pair, the current
    streak is at most the longest streak; and it does return a pair for
    every readable log of date strings that is empty, or that does not
    hold 0001-01-01 when today is a later day. *)
Theorem current_streak_le_longest :
  (forall (s : store) (today : date) (current longest : Z),
     calculate_current_streak s today = Ok (current, longest) ->
     current <= longest)
  /\ (forall (s : store) (today : date) (ds : list date),
        logged_dates s = Ok ds ->
        ds = [] \/ (date_min <= today - 1 /\ ~ In date_min ds) ->
        exists current longest,
          calculate_current_streak s today = Ok (current, longest)
          /\ current <= longest).
Proof.
  split; [exact current_streak_bounded|].
  intros s today ds Hds Hok.
  destruct (calculate_current_streak_returns s today ds Hds Hok) as (c & l & H).
  exists c, l. split; [assumption | now apply (current_streak_bounded s today)].
Qed.

(** The witness: a streak of three days that ends today, in a log whose
    longest streak is three. *)
Lemma current_streak_le_longest_witness :
  calculate_current_streak
    (store_of ["2024-01-03"; "2024-01-04"; "2024-01-05"; "2023-12-30"]%string)
    (ymd2ord 2024 1 5) = Ok (3, 3)
  /\ 3 <= 3.
Proof.
  split; [reflexivity|].
  apply (proj1 current_streak_le_longest
           (store_of ["2024-01-03"; "2024-01-04"; "2024-01-05"; "2023-12-30"]%string)
           (ymd2ord 2024 1 5)).
  reflexivity.
Defined.

End StreakFacts.

(* ===================================================================== *)
(** ** Signs of the calculators' results                                  *)
(* ===================================================================== *)

Module SignFacts.
Import Calculator Sign.

#[local] Open Scope float_scope.

(** *** Rounding keeps the sign *)

Lemma not_negative_sf (x : float) : not_negative x <-> sf_not_negative (Prim2SF x).
Proof.
  unfold not_negative. rewrite ltb_spec. unfold SFltb, SFcompare.
  change (Prim2SF 0) with (S754_zero false).
  destruct (Prim2SF x) as [ [|] | [|] | | [|] m e ]; simpl; split; congruence || auto.
Qed.

Lemma binary_round_aux_sign (prec emax : Z) (mx ex : Z) (lx : location) :
  sf_not_negative (binary_round_aux prec emax false mx ex lx).
Proof.
  unfold binary_round_aux.
  destruct (shr_fexp prec emax mx ex lx) as [mrs' e'].
  destruct (shr_fexp prec emax _ e' loc_Exact) as [mrs'' e''].
  destruct (shr_m mrs''); simpl; auto.
  destruct (_ <=? _)%Z; simpl; auto.
Qed.

Lemma SFmul_not_negative (prec emax : Z) (x y : spec_float) :
  sf_not_negative x -> sf_not_negative y -> sf_not_negative (SFmul prec emax x y).
Proof.
  destruct x as [sx|sx| |sx mx ex], y as [sy|sy| |sy my ey]; simpl;
    intros Hx Hy; subst; simpl; auto using binary_round_aux_sign.
Qed.

Lemma SFdiv_not_negative (prec emax : Z) (x : spec_float) (my : positive) (ey : Z) :
  sf_not_negative x ->
  sf_not_negative (SFdiv prec emax x (S754_finite false my ey)).
Proof.
  destruct x as [sx|sx| |sx mx ex]; simpl; intros Hx; subst; simpl; auto.
  destruct (SFdiv_core_binary _ _ _ _ _ _) as [[mz ez] lz].
  apply binary_round_aux_sign.
Qed.

Lemma binary_round_sign (prec emax : Z) (mx : positive) (ex : Z) :
  sf_not_negative (binary_round prec emax false mx ex).
Proof.
  unfold binary_round. destruct (shl_align _ _ _) as [mz ez].
  apply binary_round_aux_sign.
Qed.

Lemma SFadd_not_negative (prec emax : Z) (x y : spec_float) :
  sf_not_negative x -> sf_not_negative y -> sf_not_negative (SFadd prec emax x y).
Proof.
  destruct x as [sx|sx| |sx mx ex], y as [sy|sy| |sy my ey]; simpl;
    intros Hx Hy; subst; simpl; auto.
  - destruct sx, sy; simpl; auto.
  - apply binary_round_sign.
Qed.

Lemma mul_not_negative (x y : float) :
  not_negative x -> not_negative y -> not_negative (x * y).
Proof.
  rewrite !not_negative_sf, mul_spec. apply SFmul_not_negative.
Qed.

Lemma add_not_negative (x y : float) :
  not_negative x -> not_negative y -> not_negative (x + y).
Proof.
  rewrite !not_negative_sf, add_spec. apply SFadd_not_negative.
Qed.

Lemma div_12_not_negative (x : float) : not_negative x -> not_negative (x / 12).
Proof.
  rewrite !not_negative_sf, div_spec.
  replace (Prim2SF 12) with (S754_finite false 6755399441055744 (-49))
    by (vm_compute; reflexivity).
  apply SFdiv_not_negative.
Qed.

Lemma py_max_not_negative (x : float) : not_negative (py_max 0 x).
Proof.
  unfold not_negative, py_max. destruct (0 <? x) eqn:E; [|reflexivity].
  apply not_negative_sf. rewrite ltb_spec in E. unfold SFltb, SFcompare in E.
  change (Prim2SF 0) with (S754_zero false) in E.
  destruct (Prim2SF x) as [ [|] | [|] | | [|] m e ]; simpl in *; congruence.
Qed.

Lemma diet_factor_not_negative (diet_type : string) : not_negative (diet_factor diet_type).
Proof.
  unfold diet_factor.
  destruct (String.eqb diet_type "vegan"); [reflexivity|].
  destruct (String.eqb diet_type "vegetarian"); [reflexivity|].
  destruct (String.eqb diet_type "omniverous"); reflexivity.
Qed.

(** *** The component calculators *)

Lemma energy_sign (kwh : float) :
  not_negative kwh -> not_negative (calculate_energy_footprint kwh).
Proof. intros Hk. apply mul_not_negative; [assumption | reflexivity]. Qed.

Lemma travel_sign (car_km flight_km : float) :
  not_negative car_km -> not_negative flight_km ->
  not_negative (calculate_travel_footprint car_km flight_km).
Proof.
  intros Hc Hf. unfold calculate_travel_footprint. apply add_not_negative.
  - apply mul_not_negative; [assumption | reflexivity].
  - apply div_12_not_negative. apply mul_not_negative; [assumption | reflexivity].
Qed.

Lemma diet_sign (diet_type : string) (meals_per_month : float) :
  not_negative meals_per_month ->
  not_negative (calculate_diet_footprint diet_type meals_per_month).
Proof.
  intros Hm. apply mul_not_negative; [assumption | apply diet_factor_not_negative].
Qed.

Lemma total_sign (energy travel diet w : float) :
  not_negative energy -> not_negative travel -> not_negative diet -> not_negative w ->
  let r := calculate_total_footprint energy travel diet w in
  not_negative (Total r) /\ not_negative (Energy r) /\ not_negative (Travel r)
  /\ not_negative (Diet r) /\ not_negative (Waste r).
Proof.
  intros He Ht Hd Hw. cbv zeta.
  assert (Hwaste : not_negative (waste_per_person_co2 * w))
    by (apply mul_not_negative; [reflexivity | assumption]).
  repeat split; try assumption.
  cbn [calculate_total_footprint Total].
  repeat apply add_not_negative; assumption.
Qed.

Lemma savings_sign (kwh car_km : float) (diet_type : string) :
  let r := calculate_financial_savings kwh car_km diet_type in
  not_negative (TotalSavings r) /\ not_negative (EnergySavings r)
  /\ not_negative (TravelSavings r) /\ not_negative (DietSavings r).
Proof.
  cbv zeta.
  assert (Hd : not_negative (DietSavings (calculate_financial_savings kwh car_km diet_type))).
  { cbn [calculate_financial_savings DietSavings].
    destruct (String.eqb diet_type "vegetarian"); [reflexivity|].
    destruct (String.eqb diet_type "vegan"); reflexivity. }
  repeat split; try apply py_max_not_negative; try exact Hd.
  cbn [calculate_financial_savings TotalSavings].
  repeat apply add_not_negative; try apply py_max_not_negative. exact Hd.
Qed.

(** X1.  Electricity use, car distance and flight distance that are not
    below zero give an energy footprint and a travel footprint that are
    not below zero. *)
Theorem energy_travel_not_negative (kwh car_km flight_km : float) :
  not_negative kwh -> not_negative car_km -> not_negative flight_km ->
  not_negative (calculate_energy_footprint kwh)
  /\ not_negative (calculate_travel_footprint car_km flight_km).
Proof.
  intros Hk Hc Hf. split; [now apply energy_sign | now apply travel_sign].
Qed.

Lemma energy_travel_not_negative_witness :
  not_negative (calculate_energy_footprint 250)
  /\ not_negative (calculate_travel_footprint 500 1000).
Proof. apply energy_travel_not_negative; reflexivity. Defined.

(** X2.  Whatever the diet string, a meal count that is not below zero
    gives a diet footprint that is not below zero. *)
Theorem diet_footprint_not_negative (diet_type : string) (meals_per_month : float) :
  not_negative meals_per_month ->
  not_negative (calculate_diet_footprint diet_type meals_per_month).
Proof. apply diet_sign. Qed.

Lemma diet_footprint_not_negative_witness :
  not_negative (calculate_diet_footprint "pescatarian" 90).
Proof. apply diet_footprint_not_negative. reflexivity. Defined.

(** X3.  When no argument of [calculate_total_footprint] is below zero,
    no field of the breakdown is: neither the four components nor the
    total. *)
Theorem total_footprint_not_negative (energy travel diet w : float) :
  not_negative energy -> not_negative travel -> not_negative diet -> not_negative w ->
  let r := calculate_total_footprint energy travel diet w in
  not_negative (Total r) /\ not_negative (Energy r) /\ not_negative (Travel r)
  /\ not_negative (Diet r) /\ not_negative (Waste r).
Proof. apply total_sign. Qed.

Lemma total_footprint_not_negative_witness :
  let r := calculate_total_footprint 100 97.5 108 0.8 in
  not_negative (Total r) /\ not_negative (Energy r) /\ not_negative (Travel r)
  /\ not_negative (Diet r) /\ not_negative (Waste r).
Proof. apply total_footprint_not_negative; reflexivity. Defined.

(** X4.  Whatever the consumption, the distance and the diet string (also
    below the benchmark, negative or NaN), the total of the potential
    savings is not below zero. *)
Theorem total_savings_not_negative (kwh car_km : float) (diet_type : string) :
  not_negative (TotalSavings (calculate_financial_savings kwh car_km diet_type)).
Proof. apply savings_sign. Qed.

(** X5.  [handle_calculation]: when the three numbers of the form are not
    below zero, no field of the footprint record and no field of the
    savings record is below zero, for every diet and either state of the
    recycling box. *)
Theorem handle_calculation_not_negative
    (kwh car_km flight_km : float) (diet : string) (recycle : bool) :
  not_negative kwh -> not_negative car_km -> not_negative flight_km ->
  let co2 := fst (handle_calculation kwh car_km flight_km diet recycle) in
  let inr := snd (handle_calculation kwh car_km flight_km diet recycle) in
  (not_negative (Total co2) /\ not_negative (Energy co2) /\ not_negative (Travel co2)
   /\ not_negative (Diet co2) /\ not_negative (Waste co2))
  /\ (not_negative (TotalSavings inr) /\ not_negative (EnergySavings inr)
      /\ not_negative (TravelSavings inr) /\ not_negative (DietSavings inr)).
Proof.
  intros Hk Hc Hf. cbv zeta. split.
  - apply total_sign.
    + now apply energy_sign.
    + now apply travel_sign.
    + apply diet_sign. reflexivity.
    + destruct recycle; reflexivity.
  - apply savings_sign.
Qed.

Lemma handle_calculation_not_negative_witness :
  let co2 := fst (handle_calculation 250 500 1000 "vegetarian" true) in
  let inr := snd (handle_calculation 250 500 1000 "vegetarian" true) in
  (not_negative (Total co2) /\ not_negative (Energy co2) /\ not_negative (Travel co2)
   /\ not_negative (Diet co2) /\ not_negative (Waste co2))
  /\ (not_negative (TotalSavings inr) /\ not_negative (EnergySavings inr)
      /\ not_negative (TravelSavings inr) /\ not_negative (DietSavings inr)).
Proof. apply handle_calculation_not_negative; reflexivity. Defined.

End SignFacts.

(* ===================================================================== *)
(** ** Properties of the streak handlers                                  *)
(* ===================================================================== *)

Module AppFacts.
Import Streak App StreakFacts.

#[local] Open Scope Z_scope.

(** *** The clock's date as text, and back *)

Lemma digit_digit_char (v : Z) : 0 <= v <= 9 -> digit (digit_char v) = Some v.
Proof.
  intros H.
  assert (Hc : v = 0 \/ v = 1 \/ v = 2 \/ v = 3 \/ v = 4 \/ v = 5 \/ v = 6 \/ v = 7
               \/ v = 8 \/ v = 9) by lia.
  repeat (destruct Hc as [->|Hc]; [reflexivity|]). subst; reflexivity.
Qed.

Lemma parse_year_four_digits (y : Z) :
  0 <= y <= 9999 ->
  parse_year (digit_char (y / 1000 mod 10)) (digit_char (y / 100 mod 10))
             (digit_char (y / 10 mod 10)) (digit_char (y mod 10)) = Some y.
Proof.
  intros H. unfold parse_year.
  rewrite !digit_digit_char by (Z.to_euclidean_division_equations; lia).
  f_equal. Z.to_euclidean_division_equations; lia.
Qed.

Lemma parse_month_two_digits (m : Z) :
  1 <= m <= 12 -> parse_month [digit_char (m / 10); digit_char (m mod 10)] = Some m.
Proof.
  intros H.
  assert (Hc : m = 1 \/ m = 2 \/ m = 3 \/ m = 4 \/ m = 5 \/ m = 6 \/ m = 7 \/ m = 8
               \/ m = 9 \/ m = 10 \/ m = 11 \/ m = 12) by lia.
  repeat (destruct Hc as [->|Hc]; [reflexivity|]). subst; reflexivity.
Qed.

Lemma parse_day_two_digits (d : Z) :
  1 <= d <= 31 -> parse_day [digit_char (d / 10); digit_char (d mod 10)] = Some d.
Proof.
  intros H.
  assert (Hc : exists n : nat, (n < 31)%nat /\ d = 1 + Z.of_nat n)
    by (exists (Z.to_nat (d - 1)); lia).
  destruct Hc as (n & Hn & ->).
  do 31 (destruct n as [|n]; [reflexivity|]). lia.
Qed.

Lemma days_in_month_le_31 (y m : Z) : days_in_month y m <= 31.
Proof.
  unfold days_in_month.
  repeat match goal with
         | |- context [match ?x with _ => _ end] => destruct x
         end; lia.
Qed.

(** The string that [strftime('%Y-%m-%d')] writes for a date parses back
    to that date. *)
Lemma strptime_strftime (y m d : Z) :
  valid_ymd y m d -> 1000 <= y <= 9999 ->
  strptime_ymd (strftime_ymd y m d) = Ok (ymd2ord y m d)
  /\ iso_format (strftime_ymd y m d) = true.
Proof.
  intros (Hy & Hm & Hd) Hy4.
  pose proof (days_in_month_le_31 y m) as H31.
  assert (Hdig : forall v, 0 <= v <= 9 -> is_digit (digit_char v) = true)
    by (intros v Hv; unfold is_digit; now rewrite digit_digit_char).
  assert (Hm10 : 0 <= m / 10 <= 9 /\ 0 <= m mod 10 <= 9)
    by (Z.to_euclidean_division_equations; lia).
  assert (Hd10 : 0 <= d / 10 <= 9 /\ 0 <= d mod 10 <= 9)
    by (Z.to_euclidean_division_equations; lia).
  split.
  - unfold strptime_ymd, strftime_ymd. rewrite list_ascii_of_string_of_list_ascii.
    rewrite (digit_not_dash _ _ (digit_digit_char _ (proj2 Hm10))).
    change (Ascii.eqb "-" "-") with true. cbv iota.
    rewrite parse_year_four_digits by lia.
    rewrite parse_month_two_digits by lia.
    rewrite parse_day_two_digits by lia.
    unfold make_date.
    replace ((1 <=? y) && (d <=? days_in_month y m)) with true; [reflexivity|].
    symmetry. apply andb_true_intro. split; lia.
  - unfold iso_format, strftime_ymd. rewrite list_ascii_of_string_of_list_ascii.
    cbn [forallb].
    rewrite !Hdig by (Z.to_euclidean_division_equations; lia). reflexivity.
Qed.

Lemma parse_year_range (a b c d : ascii) (y : Z) :
  parse_year a b c d = Some y -> 0 <= y <= 9999.
Proof.
  unfold parse_year.
  destruct (digit a) as [va|] eqn:Ea; [|discriminate].
  destruct (digit b) as [vb|] eqn:Eb; [|discriminate].
  destruct (digit c) as [vc|] eqn:Ec; [|discriminate].
  destruct (digit d) as [vd|] eqn:Ed; [|discriminate].
  apply digit_inv in Ea as [? _], Eb as [? _], Ec as [? _], Ed as [? _].
  intros [= <-]. lia.
Qed.

Lemma parse_month_range (cs : list ascii) (m : Z) :
  parse_month cs = Some m -> 1 <= m <= 12.
Proof.
  unfold parse_month. destruct cs as [|a [|b [|c cs]]]; try discriminate.
  - destruct (digit a) as [va|] eqn:Ea; [|discriminate].
    apply digit_inv in Ea as [? _].
    destruct (1 <=? va) eqn:E; [|discriminate]. intros [= <-]. lia.
  - destruct (digit a) as [va|] eqn:Ea; [|discriminate].
    destruct (digit b) as [vb|] eqn:Eb;
      [|destruct va as [|[p|p|]|]; discriminate].
    apply digit_inv in Ea as [? _], Eb as [? _].
    destruct va as [|[p|p|]|]; try discriminate.
    + destruct (1 <=? vb) eqn:E; [|discriminate]. intros [= <-]. lia.
    + destruct (vb <=? 2) eqn:E; [|discriminate]. intros [= <-]. lia.
Qed.

Lemma parse_day_range (cs : list ascii) (d : Z) :
  parse_day cs = Some d -> 1 <= d <= 31.
Proof.
  unfold parse_day. destruct cs as [|a [|b [|c cs]]]; try discriminate.
  - destruct (digit a) as [va|] eqn:Ea; [|discriminate].
    apply digit_inv in Ea as [? _].
    destruct (1 <=? va) eqn:E; [|discriminate]. intros [= <-]. lia.
  - destruct (digit b) as [vb|] eqn:Eb.
    + apply digit_inv in Eb as [? _].
      destruct (digit a) as [va|] eqn:Ea.
      * apply digit_inv in Ea as [? _].
        destruct va as [|[[p|p|]|[p|p|]|]|]; try discriminate.
        -- destruct (1 <=? vb) eqn:E; [|discriminate]. intros [= <-]. lia.
        -- destruct (vb <=? 1) eqn:E; [|discriminate]. intros [= <-]. lia.
        -- intros [= <-]. lia.
        -- intros [= <-]. lia.
      * destruct (Ascii.eqb a " " && (1 <=? vb)) eqn:E; [|discriminate].
        apply andb_prop in E as [_ E]. intros [= <-]. lia.
    + destruct (digit a) as [[|[[p|p|]|[p|p|]|]|]|]; discriminate.
Qed.

Lemma ymd2ord_range (y m d : Z) :
  valid_ymd y m d -> y <= 9999 -> date_min <= ymd2ord y m d <= date_max.
Proof.
  intros Hv Hy.
  assert (Hlo : valid_ymd 1 1 1) by (unfold valid_ymd; simpl; lia).
  assert (Hhi : valid_ymd 9999 12 31) by (unfold valid_ymd; simpl; lia).
  pose proof (days_in_month_le_31 y m) as H31.
  destruct Hv as (Hy1 & Hm & Hd).
  assert (Hv : valid_ymd y m d) by (unfold valid_ymd; lia).
  change date_min with (ymd2ord 1 1 1). change date_max with (ymd2ord 9999 12 31).
  split.
  - destruct (Z.eq_dec y 1) as [->|]; [|apply Z.lt_le_incl, ymd2ord_lt; auto; lia].
    destruct (Z.eq_dec m 1) as [->|]; [|apply Z.lt_le_incl, ymd2ord_lt; auto; lia].
    destruct (Z.eq_dec d 1) as [->|]; [lia|apply Z.lt_le_incl, ymd2ord_lt; auto; lia].
  - destruct (Z.eq_dec y 9999) as [->|]; [|apply Z.lt_le_incl, ymd2ord_lt; auto; lia].
    destruct (Z.eq_dec m 12) as [->|]; [|apply Z.lt_le_incl, ymd2ord_lt; auto; lia].
    destruct (Z.eq_dec d 31) as [->|]; [lia|apply Z.lt_le_incl, ymd2ord_lt; auto; lia].
Qed.

(** Every string that [strptime] accepts names a day of a month of a year
    from 1 to 9999, and its date lies between [date.min] and [date.max]. *)
Lemma strptime_ymd_inv (s : string) (a : date) :
  strptime_ymd s = Ok a ->
  exists y m d, valid_ymd y m d /\ y <= 9999 /\ a = ymd2ord y m d
                /\ date_min <= a <= date_max.
Proof.
  unfold strptime_ymd.
  destruct (list_ascii_of_string s) as [|y1 [|y2 [|y3 [|y4 [|dash [|m1 [|c rest]]]]]]];
    try discriminate.
  destruct (if Ascii.eqb c "-" then _ else _) as [[ms ds]|]; [|discriminate].
  destruct (parse_year y1 y2 y3 y4) as [year|] eqn:Ey; [|discriminate].
  destruct (parse_month ms) as [month|] eqn:Em; [|discriminate].
  destruct (parse_day ds) as [day|] eqn:Ed; [|discriminate].
  destruct (Ascii.eqb dash "-"); [|discriminate].
  unfold make_date. destruct ((1 <=? year) && (day <=? _)) eqn:E; [|discriminate].
  intros [= <-]. apply andb_prop in E as [E1 E2].
  apply parse_year_range in Ey. apply parse_month_range in Em. apply parse_day_range in Ed.
  assert (Hv : valid_ymd year month day) by (unfold valid_ymd; lia).
  exists year, month, day. repeat split; try assumption; try lia;
    apply ymd2ord_range; assumption || lia.
Qed.

Lemma longest_run_le (ds ds' : list date) (n n' : Z) :
  (forall x, In x ds -> In x ds') ->
  longest_run ds n -> longest_run ds' n' -> n <= n'.
Proof.
  intros Hsub (_ & [a Ha] & _) (_ & _ & Hmax).
  apply (Hmax a). intros i Hi. apply Hsub. now apply Ha.
Qed.

Lemma mapM_Ok_nil {A B} (f : A -> result B) (l : list A) :
  mapM f l = Ok [] -> l = [].
Proof.
  destruct l as [|x l]; [reflexivity|]. simpl. intros H.
  inv_bind H. inv_bind H. discriminate.
Qed.

Lemma mapM_length {A B} (f : A -> result B) (l : list A) (r : list B) :
  mapM f l = Ok r -> List.length r = List.length l.
Proof.
  revert r. induction l as [|x l IH]; simpl; intros r H.
  - now injection H as <-.
  - inv_bind H. inv_bind H. injection H as <-. simpl. f_equal. now apply IH.
Qed.

Lemma run_length_le (ds : list date) (a k : Z) :
  run ds a k -> k <= Z.of_nat (List.length ds).
Proof.
  intros Hrun. destruct (Z_lt_le_dec k 0) as [|Hk]; [lia|].
  pose (r := List.map (fun i => a + Z.of_nat i) (seq 0 (Z.to_nat k))).
  assert (Hnd : List.NoDup r).
  { apply List.NoDup_map_NoDup_ForallPairs; [|apply seq_NoDup].
    intros i j _ _ Hij. lia. }
  assert (Hincl : incl r ds).
  { intros x Hx. apply in_map_iff in Hx as (i & <- & Hi). apply in_seq in Hi.
    apply Hrun. lia. }
  pose proof (NoDup_incl_length Hnd Hincl) as Hlen.
  unfold r in Hlen. rewrite List.length_map, List.length_seq in Hlen.
  apply Nat2Z.inj_le in Hlen. rewrite Z2Nat.id in Hlen by assumption. exact Hlen.
Qed.

Lemma longest_streak_set (l1 l2 : list hashable) (ds1 ds2 : list date) :
  mapM strptime l1 = Ok ds1 -> mapM strptime l2 = Ok ds2 ->
  (forall x, In x ds1 -> In x ds2) ->
  exists n1 n2, calculate_longest_streak l1 = Ok n1
                /\ calculate_longest_streak l2 = Ok n2 /\ n1 <= n2.
Proof.
  intros H1 H2 Hsub.
  destruct (longest_streak_of_dates l1 ds1 H1) as (n1 & E1 & R1).
  destruct (longest_streak_of_dates l2 ds2 H2) as (n2 & E2 & R2).
  exists n1, n2. repeat split; try assumption. eapply longest_run_le; eauto.
Qed.

Lemma longest_streak_same_set (l1 l2 : list hashable) (ds1 ds2 : list date) :
  mapM strptime l1 = Ok ds1 -> mapM strptime l2 = Ok ds2 ->
  (forall x, In x ds1 <-> In x ds2) ->
  calculate_longest_streak l1 = calculate_longest_streak l2.
Proof.
  intros H1 H2 Hsame.
  destruct (longest_streak_set l1 l2 ds1 ds2 H1 H2) as (n1 & n2 & E1 & E2 & Hle);
    [intros x; apply Hsame|].
  destruct (longest_streak_set l2 l1 ds2 ds1 H2 H1) as (m2 & m1 & F2 & F1 & Hge);
    [intros x; apply Hsame|].
  rewrite E1, E2 in *. injection F1 as <-. injection F2 as <-. f_equal. lia.
Qed.

Lemma longest_streak_bounds (l : list hashable) (ds : list date) :
  mapM strptime l = Ok ds -> l <> [] ->
  exists n, calculate_longest_streak l = Ok n /\ 1 <= n <= Z.of_nat (List.length l).
Proof.
  intros Hparse Hne.
  destruct (longest_streak_of_dates l ds Hparse) as (n & E & (_ & [a Ha] & Hmax)).
  exists n. split; [assumption|]. split.
  - destruct ds as [|d0 ds]; [apply mapM_Ok_nil in Hparse; contradiction|].
    apply (Hmax d0). intros i Hi. left. lia.
  - rewrite <- (mapM_length _ _ _ Hparse). now apply (run_length_le ds a).
Qed.

(** [strptime] fails with a [ValueError], or a [TypeError] for an entry
    that is not a string. *)
Lemma strptime_raise (h : hashable) (e : exn) :
  strptime h = Raise e -> e = ValueError \/ e = TypeError.
Proof.
  destruct h as [| | |s]; simpl; try (intros [= <-]; now right).
  unfold strptime_ymd.
  destruct (list_ascii_of_string s) as [|y1 [|y2 [|y3 [|y4 [|dash [|m1 [|c rest]]]]]]];
    try (intros [= <-]; now left).
  destruct (if Ascii.eqb c "-" then _ else _) as [[ms ds]|]; [|intros [= <-]; now left].
  destruct (parse_year y1 y2 y3 y4); [|intros [= <-]; now left].
  destruct (parse_month ms); [|intros [= <-]; now left].
  destruct (parse_day ds); [|intros [= <-]; now left].
  destruct (Ascii.eqb dash "-"); [|intros [= <-]; now left].
  unfold make_date. destruct (_ && _); [discriminate | intros [= <-]; now left].
Qed.

Lemma mapM_strptime_raise (l : list hashable) (h : hashable) (e : exn) :
  In h l -> strptime h = Raise e ->
  exists e', mapM strptime l = Raise e' /\ (e' = ValueError \/ e' = TypeError).
Proof.
  intros Hin Hh. induction l as [|x l IH]; [destruct Hin|]. simpl.
  destruct (strptime x) as [d|e'] eqn:Ex; simpl.
  - destruct Hin as [->|Hin]; [congruence|].
    destruct (IH Hin) as (e' & -> & He'). simpl. eauto.
  - exists e'. split; [reflexivity | now apply (strptime_raise x)].
Qed.

Lemma bad_entry_raises (l : list hashable) (h : hashable) (e : exn) :
  In h l -> strptime h = Raise e ->
  exists e', calculate_longest_streak l = Raise e' /\ (e' = ValueError \/ e' = TypeError).
Proof.
  intros Hin Hh. destruct (mapM_strptime_raise l h e Hin Hh) as (e' & E & He').
  exists e'. split; [|assumption].
  destruct l as [|x l]; [destruct Hin|].
  unfold calculate_longest_streak. now rewrite E.
Qed.

Lemma bad_entry_raises_current (s : store) (today : date) (l : list hashable)
    (h : hashable) (e : exn) :
  load_streak_dates s = Ok l -> In h l -> strptime h = Raise e ->
  exists e', calculate_current_streak s today = Raise e'
             /\ (e' = ValueError \/ e' = TypeError).
Proof.
  intros Hload Hin Hh. destruct (mapM_strptime_raise l h e Hin Hh) as (e' & E & He').
  exists e'. split; [|assumption].
  unfold calculate_current_streak. rewrite Hload. simpl bind.
  destruct l as [|x l]; [destruct Hin|]. now rewrite E.
Qed.

Lemma mapM_In {A B} (f : A -> result B) (l : list A) (r : list B) :
  mapM f l = Ok r ->
  forall y, In y r <-> exists x, In x l /\ f x = Ok y.
Proof.
  revert r. induction l as [|x l IH]; simpl; intros r H y.
  - injection H as <-. simpl. split; [tauto | intros (x & [] & _)].
  - inv_bind H. inv_bind H. injection H as <-. simpl. rewrite (IH _ Ha0). split.
    + intros [<-|(x' & Hx' & E)]; eauto.
    + intros (x' & [<-|Hx'] & E); [left; congruence | right; eauto].
Qed.

Lemma mapM_total {A B} (f : A -> result B) (l : list A) :
  (forall x, In x l -> exists y, f x = Ok y) -> exists r, mapM f l = Ok r.
Proof.
  induction l as [|x l IH]; simpl; intros H; [eauto|].
  destruct (H x (or_introl eq_refl)) as [y ->]. simpl.
  destruct IH as [r ->]; [intros; apply H; now right|]. simpl. eauto.
Qed.

Lemma mapM_strptime_str (l : list hashable) (ds : list date) :
  mapM strptime l = Ok ds -> Forall is_str l.
Proof.
  revert ds. induction l as [|h l IH]; simpl; intros ds H; [constructor|].
  inv_bind H. inv_bind H. constructor; [|eauto].
  destruct h; try discriminate. now eexists.
Qed.

Lemma count_back_shift (all_dates : list date) (room : nat) :
  forall (c : date) (streak k : Z),
    count_back room all_dates c (streak + k)
    = let! r := count_back room all_dates c streak in Ok (r + k).
Proof.
  induction room as [|room IH]; intros c streak k; simpl;
    destruct (py_in Z.eqb c all_dates); try reflexivity.
  replace (streak + k + 1) with (streak + 1 + k) by lia. apply IH.
Qed.

Lemma count_back_ext (all_dates all_dates' : list date) (room : nat) :
  forall (c : date) (streak : Z),
    (forall x, x <= c -> In x all_dates <-> In x all_dates') ->
    count_back room all_dates c streak = count_back room all_dates' c streak.
Proof.
  induction room as [|room IH]; intros c streak Hsame; simpl.
  - destruct (py_in Z.eqb c all_dates) eqn:E, (py_in Z.eqb c all_dates') eqn:E';
      try reflexivity.
    + apply py_in_date, Hsame in E; [|lia]. apply py_in_date in E. congruence.
    + apply py_in_date, Hsame in E'; [|lia]. apply py_in_date in E'. congruence.
  - destruct (py_in Z.eqb c all_dates) eqn:E, (py_in Z.eqb c all_dates') eqn:E';
      try reflexivity.
    + apply IH. intros x Hx. apply Hsame. lia.
    + apply py_in_date, Hsame in E; [|lia]. apply py_in_date in E. congruence.
    + apply py_in_date, Hsame in E'; [|lia]. apply py_in_date in E'. congruence.
Qed.

Lemma count_back_pos (all_dates : list date) (room : nat) (c : date) (streak r : Z) :
  In c all_dates -> count_back room all_dates c streak = Ok r -> streak + 1 <= r.
Proof.
  intros Hin H. apply py_in_date in Hin.
  destruct room as [|room]; simpl in H; rewrite Hin in H; [discriminate|].
  apply count_back_Ok in H as [H _]. lia.
Qed.

(** The outcome of [calculate_current_streak] on a log that loads as a
    non-empty list and parses, read through the count from yesterday. *)
Lemma current_streak_inv (s : store) (today : date) (ds : list date) (c l : Z) :
  logged_dates s = Ok ds ->
  calculate_current_streak s today = Ok (c, l) ->
  0 <= c /\ (c = 0 <-> ~ In today ds /\ ~ In (today - 1) ds).
Proof.
  intros Hds H. unfold logged_dates in Hds. inv_bind Hds.
  rename a into dates, Ha into Hload.
  unfold calculate_current_streak in H. rewrite Hload in H. simpl bind in H.
  destruct dates as [|x dates].
  - injection Hds as <-. injection H as <- <-. simpl. split; [lia | tauto].
  - destruct (longest_streak_of_dates _ _ Hds) as (n & Hlong & _).
    rewrite Hds, Hlong in H. simpl bind in H. unfold date_sub in H.
    destruct (today - 1 <? date_min); [discriminate|]. simpl bind in H.
    destruct (py_in Z.eqb today (py_set Z.eqb ds)) eqn:Et.
    + apply py_in_all_dates in Et.
      destruct (count_back _ _ today 0) as [cs|] eqn:Hc; [|discriminate].
      injection H as -> _.
      apply count_back_pos in Hc; [|now apply py_set_date]. split; [lia|].
      split; [lia | tauto].
    + apply py_in_all_dates_false in Et.
      destruct (py_in Z.eqb (today - 1) (py_set Z.eqb ds)) eqn:Ey.
      * apply py_in_all_dates in Ey.
        destruct (count_back _ _ (today - 1) 0) as [cs|] eqn:Hc; [|discriminate].
        injection H as -> _.
        apply count_back_pos in Hc; [|now apply py_set_date]. split; [lia|].
        split; [lia | tauto].
      * apply py_in_all_dates_false in Ey.
        injection H as <- _. split; [lia | tauto].
Qed.

(** What [save_new_log] does to a log of date strings that does not hold
    the new string: the call succeeds and the file then loads as a
    rearrangement of the old entries and the new one. *)
Lemma save_new_log_absent (t : string) (s : store) (dates : list hashable) :
  load_streak_dates s = Ok dates -> Forall is_str dates -> ~ In (HStr t) dates ->
  exists dates',
    save_new_log t s = (dump_dates dates', Ok tt)
    /\ load_streak_dates (dump_dates dates') = Ok dates'
    /\ Permutation (dates ++ [HStr t]) dates'.
Proof.
  intros Hload Hstr Hin.
  destruct (py_sorted_total py_lt is_str (dates ++ [HStr t])) as [dates' Hsort].
  - apply py_lt_str.
  - apply List.Forall_app. split; [assumption|]. repeat constructor. now exists t.
  - exists dates'.
    destruct (persist_absent _ _ _ _ Hload Hin Hsort) as (_ & Hl & _ & Hp).
    repeat split; try assumption.
    unfold save_new_log. rewrite Hload.
    destruct (py_in py_eq (HStr t) dates) eqn:E; [now apply py_in_str in E|].
    simpl. now rewrite Hsort.
Qed.

Lemma today_after_year_one (y m d : Z) :
  valid_ymd y m d -> 1000 <= y -> 2 <= ymd2ord y m d.
Proof.
  intros Hv Hy.
  assert (H : ymd2ord 1 1 1 < ymd2ord y m d).
  { apply ymd2ord_lt; [unfold valid_ymd; simpl; lia | assumption | lia]. }
  change (ymd2ord 1 1 1) with 1 in H. lia.
Qed.

(** The count from yesterday that the current streak amounts to when today
    is not logged. *)
Lemma current_streak_from_yesterday (s : store) (today : date) (ds : list date) (c l : Z) :
  logged_dates s = Ok ds -> ~ In today ds -> date_min <= today - 1 ->
  calculate_current_streak s today = Ok (c, l) ->
  count_back (Z.to_nat (today - 1 - date_min)) (py_set Z.eqb ds) (today - 1) 0 = Ok c
  /\ longest_run ds l.
Proof.
  intros Hds Htoday Hy H. unfold logged_dates in Hds. inv_bind Hds.
  rename a into dates, Ha into Hload.
  destruct (longest_streak_of_dates _ _ Hds) as (n & Hlong & Hrun).
  destruct dates as [|x dates].
  - injection Hds as <-. unfold calculate_current_streak in H. rewrite Hload in H.
    injection H as <- <-. injection Hlong as <-. split; [|assumption].
    destruct (Z.to_nat _); reflexivity.
  - rewrite (calculate_current_streak_unfold s today _ _ Hload
               ltac:(discriminate) Hds Hy) in H.
    cbv zeta in H. rewrite Hlong in H.
    rewrite (proj2 (py_in_all_dates_false _ _) Htoday) in H.
    destruct (py_in Z.eqb (today - 1) (py_set Z.eqb ds)) eqn:Ey.
    + destruct (count_back _ _ (today - 1) 0) as [cs|]; [|discriminate].
      injection H as <- <-. split; [reflexivity | assumption].
    + injection H as <- <-. split; [|assumption].
      destruct (Z.to_nat _); simpl; now rewrite Ey.
Qed.

Lemma log_action_extends (y m d : Z) (s : store) (ds : list date) (c l : Z) :
  valid_ymd y m d -> 1000 <= y <= 9999 ->
  logged_dates s = Ok ds -> ~ In (ymd2ord y m d) ds ->
  calculate_current_streak s (ymd2ord y m d) = Ok (c, l) ->
  exists l',
    snd (log_action y m d s) = Ok tt
    /\ calculate_current_streak (fst (log_action y m d s)) (ymd2ord y m d)
       = Ok (c + 1, l')
    /\ l <= l'
    /\ streak_panel (ymd2ord y m d) y m d (fst (log_action y m d s)) = Ok (c + 1, l', true).
Proof.
  intros Hv Hy4 Hds Htoday Hccs.
  set (today := ymd2ord y m d) in *. set (t := strftime_ymd y m d).
  pose proof (today_after_year_one y m d Hv ltac:(lia)) as Htwo. fold today in Htwo.
  destruct (strptime_strftime y m d Hv Hy4) as [Hrt _]. fold today t in Hrt.
  assert (Hy : date_min <= today - 1) by (unfold date_min; lia).
  destruct (current_streak_from_yesterday s today ds c l Hds Htoday Hy Hccs)
    as [Hback Hrun].
  unfold logged_dates in Hds. inv_bind Hds. rename a into dates, Ha into Hload.
  pose proof (mapM_strptime_str _ _ Hds) as Hstr.
  assert (Hin : ~ In (HStr t) dates).
  { intros Hin. apply Htoday. apply (mapM_In _ _ _ Hds). exists (HStr t). now split. }
  destruct (save_new_log_absent t s dates Hload Hstr Hin) as (dates' & Hsave & Hload' & Hp).
  unfold log_action. fold t. rewrite Hsave. cbn [fst snd].
  (* the entries of the new file parse, to the old dates and today *)
  destruct (mapM_total strptime dates') as [ds' Hds'].
  { intros h Hh. apply (Permutation_in _ (Permutation_sym Hp)) in Hh.
    apply in_app_or in Hh as [Hh|[<-|[]]]; [|eauto].
    rewrite List.Forall_forall in Hstr.
    assert (Hall : forall h, In h dates -> exists a, strptime h = Ok a).
    { clear -Hds. revert ds Hds. induction dates as [|h0 dates IH]; intros ds Hds h' [].
      - subst. simpl in Hds. inv_bind Hds. eauto.
      - simpl in Hds. inv_bind Hds. inv_bind Hds. eauto. }
    now apply Hall. }
  assert (Hmem : forall x, In x ds' <-> x = today \/ In x ds).
  { intros x. rewrite (mapM_In _ _ _ Hds'), (mapM_In _ _ _ Hds). split.
    - intros (h & Hh & E). apply (Permutation_in _ (Permutation_sym Hp)) in Hh.
      apply in_app_or in Hh as [Hh|[<-|[]]]; [right; eauto|].
      left. simpl in E. congruence.
    - intros [->|(h & Hh & E)].
      + exists (HStr t). split; [|exact Hrt].
        eapply Permutation_in; [exact Hp|]. apply in_or_app. right. now left.
      + exists h. split; [|exact E].
        eapply Permutation_in; [exact Hp|]. apply in_or_app. now left. }
  assert (Hne : dates' <> []).
  { intros ->. apply Permutation_sym, Permutation_nil in Hp.
    now destruct dates. }
  destruct (longest_streak_of_dates _ _ Hds') as (l' & Hlong' & Hrun').
  exists l'. split; [reflexivity|].
  assert (Hcur : calculate_current_streak (dump_dates dates') today = Ok (c + 1, l')).
  { rewrite (calculate_current_streak_unfold _ today _ _ Hload' Hne Hds' Hy).
    cbv zeta. rewrite Hlong'.
    rewrite (proj2 (py_in_all_dates today ds')) by (apply Hmem; now left).
    replace (Z.to_nat (today - date_min))
      with (S (Z.to_nat (today - 1 - date_min))) by (unfold date_min; lia).
    cbn [count_back].
    rewrite (proj2 (py_in_date today (py_set Z.eqb ds')))
      by (apply py_set_date, Hmem; now left).
    rewrite (count_back_ext _ (py_set Z.eqb ds)).
    - rewrite (count_back_shift _ _ _ 0 1), Hback.
      reflexivity.
    - intros x Hx. rewrite !py_set_date, Hmem. split; [|tauto].
      intros [->|H]; [lia | assumption]. }
  split; [exact Hcur|]. split.
  - eapply longest_run_le; [|exact Hrun|exact Hrun']. intros x Hx. apply Hmem. now right.
  - unfold streak_panel. fold today t. rewrite Hcur. simpl bind. rewrite Hload'.
    simpl bind. cbn [fst snd]. repeat f_equal.
    apply py_in_str. eapply Permutation_in; [exact Hp|]. apply in_or_app. right. now left.
Qed.

(** *** The order of strings is transitive *)

Lemma ascii_compare_lt_trans (a b c : ascii) :
  Ascii.compare a b = Lt -> Ascii.compare b c = Lt -> Ascii.compare a c = Lt.
Proof.
  unfold Ascii.compare. rewrite !N.compare_lt_iff. lia.
Qed.

Lemma string_compare_lt_trans (s t u : string) :
  String.compare s t = Lt -> String.compare t u = Lt -> String.compare s u = Lt.
Proof.
  revert t u. induction s as [|a s IH]; intros [|b t] [|c u]; simpl;
    try discriminate; try reflexivity.
  destruct (Ascii.compare a b) eqn:Eab; try discriminate;
    destruct (Ascii.compare b c) eqn:Ebc; try discriminate; intros Hst Htu.
  - apply Ascii.compare_eq_iff in Eab, Ebc. subst.
    unfold Ascii.compare. rewrite N.compare_refl. now apply (IH t).
  - apply Ascii.compare_eq_iff in Eab. subst. now rewrite Ebc.
  - apply Ascii.compare_eq_iff in Ebc. subst. now rewrite Eab.
  - now rewrite (ascii_compare_lt_trans a b c).
Qed.

Lemma py_lt_str_trans (a b c : hashable) :
  py_lt a b = Ok true -> py_lt b c = Ok true -> py_lt a c = Ok true.
Proof.
  unfold py_lt. destruct (key_of a) as [|x|s], (key_of b) as [|y|t], (key_of c) as [|z|u];
    try discriminate; intros [= H1] [= H2]; f_equal.
  - lia.
  - unfold String.ltb in *.
    destruct (String.compare s t) eqn:E1; try discriminate.
    destruct (String.compare t u) eqn:E2; try discriminate.
    now rewrite (string_compare_lt_trans s t u).
Qed.

Lemma py_lt_irrefl (a : hashable) : py_lt a a <> Ok true.
Proof.
  intros H. pose proof (py_lt_asym a a H). congruence.
Qed.

(** Two ascending lists with the same entries are the same list. *)
Lemma py_ascending_unique (l1 l2 : list hashable) :
  py_ascending l1 -> py_ascending l2 -> (forall h, In h l1 <-> In h l2) -> l1 = l2.
Proof.
  unfold py_ascending, ascending. intros H1 H2.
  apply Sorted_StronglySorted in H1; [|exact py_lt_str_trans].
  apply Sorted_StronglySorted in H2; [|exact py_lt_str_trans].
  revert l2 H2. induction H1 as [|a l1 Hs1 IH Ha]; intros l2 H2 Hsame.
  - destruct l2 as [|b l2]; [reflexivity|]. destruct (proj2 (Hsame b)). now left.
  - destruct H2 as [|b l2 Hs2 Hb].
    + destruct (proj1 (Hsame a)). now left.
    + rewrite List.Forall_forall in Ha, Hb.
      assert (a = b).
      { destruct (proj1 (Hsame a) (or_introl eq_refl)) as [E|Hin]; [congruence|].
        destruct (proj2 (Hsame b) (or_introl eq_refl)) as [E|Hin']; [assumption|].
        specialize (Ha _ Hin'). specialize (Hb _ Hin).
        apply py_lt_asym in Ha. congruence. }
      subst b. f_equal. apply IH; [assumption|].
      intros h. split; intros Hh.
      * destruct (proj1 (Hsame h) (or_intror Hh)) as [<-|]; [|assumption].
        destruct (py_lt_irrefl a). now apply Ha.
      * destruct (proj2 (Hsame h) (or_intror Hh)) as [<-|]; [|assumption].
        destruct (py_lt_irrefl a). now apply Hb.
Qed.

(** [save_new_log] on a log of strings: it succeeds, and the file then
    loads as the ascending list of the old entries and the new one. *)
Lemma save_new_log_strings (t : string) (s : store) (dates : list hashable) :
  load_streak_dates s = Ok dates -> Forall is_str dates ->
  exists dates',
    save_new_log t s = (dump_dates dates', Ok tt)
    /\ load_streak_dates (dump_dates dates') = Ok dates'
    /\ Forall is_str dates'
    /\ forall h, In h dates' <-> h = HStr t \/ In h dates.
Proof.
  intros Hload Hstr. destruct (In_dec_str t dates) as [Hin|Hin].
  - exists dates. destruct (load_streak_dates_Ok _ _ Hload) as [Hasc Hnd].
    split; [|split; [|split]].
    + unfold save_new_log. rewrite Hload. apply py_in_str in Hin. now rewrite Hin.
    + now apply load_dump_dates.
    + assumption.
    + intros h. split; [now right | intros [->|H]; assumption].
  - destruct (save_new_log_absent t s dates Hload Hstr Hin) as (dates' & Hsave & Hl & Hp).
    exists dates'. split; [|split; [|split]]; try assumption.
    + rewrite List.Forall_forall in *. intros h Hh.
      apply (Permutation_in _ (Permutation_sym Hp)) in Hh.
      apply in_app_or in Hh as [Hh|[<-|[]]]; [auto | now exists t].
    + intros h. split.
      * intros Hh. apply (Permutation_in _ (Permutation_sym Hp)) in Hh.
        apply in_app_or in Hh as [Hh|[<-|[]]]; auto.
      * intros [->|Hh]; (eapply Permutation_in; [exact Hp|]); apply in_or_app;
          [right; now left | now left].
Qed.

Lemma save_new_log_commutes_aux (d1 d2 : string) (s : store) (dates : list hashable) :
  load_streak_dates s = Ok dates -> Forall is_str dates ->
  persist d1 (persist d2 s) = persist d2 (persist d1 s).
Proof.
  intros Hload Hstr. unfold persist.
  destruct (save_new_log_strings d2 s dates Hload Hstr) as (l2 & -> & Hl2 & Hs2 & Hm2).
  destruct (save_new_log_strings d1 s dates Hload Hstr) as (l1 & -> & Hl1 & Hs1 & Hm1).
  cbn [fst].
  destruct (save_new_log_strings d1 _ l2 Hl2 Hs2) as (l21 & -> & Hl21 & _ & Hm21).
  destruct (save_new_log_strings d2 _ l1 Hl1 Hs1) as (l12 & -> & Hl12 & _ & Hm12).
  cbn [fst]. f_equal.
  apply py_ascending_unique.
  - now destruct (load_streak_dates_Ok _ _ Hl21).
  - now destruct (load_streak_dates_Ok _ _ Hl12).
  - intros h. rewrite Hm21, Hm12, Hm2, Hm1. tauto.
Qed.

(** *** When [save_new_log] fails *)

Lemma py_lt_kind (a b : hashable) (c : bool) :
  py_lt a b = Ok c -> exists k, kind a = Some k /\ kind b = Some k.
Proof.
  unfold py_lt, kind. destruct (key_of a), (key_of b); try discriminate; eauto.
Qed.

Lemma insort_comparable (x : hashable) (l r : list hashable) :
  comparable l -> insort py_lt x l = Ok r -> comparable r.
Proof.
  intros Hl H. pose proof (insort_perm _ _ _ _ H) as Hp.
  destruct l as [|y l].
  - injection H as <-. left. simpl. lia.
  - simpl in H. destruct (py_lt y x) as [c|] eqn:E; [|discriminate].
    apply py_lt_kind in E as (k & Hy & Hx).
    right. exists k. eapply Permutation_Forall; [exact Hp|].
    constructor; [assumption|].
    destruct Hl as [Hlen|(k' & Hk')].
    + destruct l; [|simpl in Hlen; lia]. now repeat constructor.
    + inversion Hk' as [|? ? Hy' Hl']; subst. assert (k' = k) by congruence. now subst.
Qed.

Lemma py_sorted_comparable (l r : list hashable) :
  py_sorted py_lt l = Ok r -> comparable r.
Proof.
  revert r. induction l as [|x l IH]; simpl; intros r H.
  - injection H as <-. left. simpl. lia.
  - inv_bind H. eapply insort_comparable; eauto.
Qed.

(** A list that holds a string and an entry that is not a string cannot
    be sorted. *)
Lemma py_sorted_mixed (l : list hashable) (t : string) (h : hashable) :
  In (HStr t) l -> In h l -> ~ is_str h -> py_sorted py_lt l = Raise TypeError.
Proof.
  intros Ht Hh Hns. destruct (py_sorted py_lt l) as [r|e] eqn:E.
  - exfalso. pose proof (py_sorted_perm _ _ _ E) as Hp.
    apply (Permutation_in _ Hp) in Ht, Hh.
    destruct (py_sorted_comparable _ _ E) as [Hlen|(k & Hk)].
    + destruct r as [|a [|b r]]; simpl in Hlen; try lia; simpl in Ht, Hh.
      * destruct Ht.
      * destruct Ht as [->|[]], Hh as [<-|[]]. apply Hns. now exists t.
    + rewrite List.Forall_forall in Hk.
      pose proof (Hk _ Ht) as K1. pose proof (Hk _ Hh) as K2.
      unfold kind in K1, K2. simpl in K1. injection K1 as <-.
      destruct h as [|b|n|u]; simpl in K2; try discriminate.
      apply Hns. now exists u.
  - f_equal. now apply (py_sorted_raise l).
Qed.

Lemma is_str_dec (h : hashable) : {is_str h} + {~ is_str h}.
Proof.
  destruct h as [|b|n|u]; [right|right|right|left; now exists u];
    intros [u' H]; discriminate.
Qed.

Lemma save_new_log_outcome_aux (t : string) (s : store) :
  (forall e, snd (save_new_log t s) = Raise e -> fst (save_new_log t s) = s)
  /\ (snd (save_new_log t s) = Ok tt ->
      exists old new,
        load_streak_dates s = Ok old
        /\ load_streak_dates (fst (save_new_log t s)) = Ok new
        /\ forall h, In h new <-> h = HStr t \/ In h old)
  /\ ((exists e, snd (save_new_log t s) = Raise e) <->
      (exists e, load_streak_dates s = Raise e)
      \/ (exists old h, load_streak_dates s = Ok old /\ ~ In (HStr t) old
                        /\ In h old /\ ~ is_str h)).
Proof.
  unfold save_new_log.
  destruct (load_streak_dates s) as [old|e0] eqn:Hload; cbn [fst snd].
  2:{ split; [reflexivity|]. split; [discriminate|]. split; eauto. }
  destruct (load_streak_dates_Ok _ _ Hload) as [Hasc Hnd].
  destruct (In_dec_str t old) as [Hin|Hin].
  - rewrite (proj2 (py_in_str t old) Hin). cbn [negb fst snd].
    split; [discriminate|]. split.
    + intros _. exists old, old. split; [reflexivity|]. split.
      * now apply load_dump_dates.
      * intros h. split; [now right | intros [->|H]; assumption].
    + split; [intros [e H]; discriminate|].
      intros [[e H]|(old' & h & [= <-] & Hn & _)]; [discriminate | contradiction].
  - destruct (py_in py_eq (HStr t) old) eqn:E; [now apply py_in_str in E|].
    cbn [negb].
    destruct (py_sorted py_lt (old ++ [HStr t])) as [new|e] eqn:Hsort; cbn [fst snd].
    + destruct (persist_absent _ _ _ _ Hload Hin Hsort) as (_ & Hl & _ & Hp).
      split; [discriminate|]. split.
      * intros _. exists old, new. split; [reflexivity|]. split; [assumption|].
        intros h. split.
        -- intros Hh. apply (Permutation_in _ (Permutation_sym Hp)) in Hh.
           apply in_app_or in Hh as [Hh|[<-|[]]]; auto.
        -- intros [->|Hh]; (eapply Permutation_in; [exact Hp|]); apply in_or_app;
             [right; now left | now left].
      * split; [intros [e H]; discriminate|].
        intros [[e H]|(old' & h & [= <-] & _ & Hh & Hns)]; [discriminate|].
        rewrite (py_sorted_mixed (old ++ [HStr t]) t h) in Hsort; try discriminate;
          try assumption; apply in_or_app; [right; now left | now left].
    + split; [reflexivity|]. split; [discriminate|]. split; [|eauto].
      intros _. right.
      (* some entry is not a string, or the sort would have succeeded *)
      destruct (@List.Forall_Exists_dec _ is_str is_str_dec old) as [Hall|Hex].
      * destruct (py_sorted_total py_lt is_str (old ++ [HStr t])) as [r Hr].
        -- apply py_lt_str.
        -- apply List.Forall_app. split; [assumption|]. repeat constructor. now exists t.
        -- congruence.
      * apply List.Exists_exists in Hex as (h & Hh & Hns). exists old, h. auto.
Qed.

Lemma first_log_aux (y m d : Z) (s : store) :
  valid_ymd y m d -> 1000 <= y <= 9999 ->
  load_streak_dates s = Ok [] ->
  streak_panel (ymd2ord y m d) y m d s = Ok (0, 0, false)
  /\ log_action y m d s = (store_of [strftime_ymd y m d], Ok tt)
  /\ streak_panel (ymd2ord y m d) y m d (store_of [strftime_ymd y m d]) = Ok (1, 1, true).
Proof.
  intros Hv Hy Hload.
  destruct (strptime_strftime y m d Hv Hy) as [Hp _].
  pose proof (today_after_year_one y m d Hv ltac:(lia)) as H2.
  assert (Hl : load_streak_dates (store_of [strftime_ymd y m d])
               = Ok [HStr (strftime_ymd y m d)]) by (now rewrite load_store_of).
  split; [|split].
  - unfold streak_panel, calculate_current_streak. rewrite Hload. reflexivity.
  - unfold log_action, save_new_log. rewrite Hload. reflexivity.
  - unfold streak_panel.
    rewrite (calculate_current_streak_unfold _ _ _ [ymd2ord y m d] Hl);
      [|discriminate | simpl; now rewrite Hp | unfold date_min; lia].
    cbv zeta. rewrite Hl.
    assert (Hin : py_in Z.eqb (ymd2ord y m d) (py_set Z.eqb [ymd2ord y m d]) = true).
    { apply py_in_date. now left. }
    rewrite Hin.
    assert (Hc : count_back (Z.to_nat (ymd2ord y m d - date_min))
                   (py_set Z.eqb [ymd2ord y m d]) (ymd2ord y m d) 0 = Ok 1).
    { apply backward_run_count. repeat split; try (unfold date_min; lia).
      - intros i Hi. assert (i = 0) as -> by lia. rewrite Z.sub_0_r. now left.
      - intros [H|[]]. lia. }
    rewrite Hc.
    assert (Hlong : calculate_longest_streak [HStr (strftime_ymd y m d)] = Ok 1).
    { unfold calculate_longest_streak. cbn [mapM strptime]. rewrite Hp. reflexivity. }
    rewrite Hlong. cbn [bind fst snd].
    assert (Hs : py_in py_eq (HStr (strftime_ymd y m d)) [HStr (strftime_ymd y m d)] = true).
    { apply py_in_str. now left. }
    now rewrite Hs.
Qed.

Lemma one_char_strptime (c : ascii) :
  strptime (HStr (String c EmptyString)) = Raise ValueError.
Proof. reflexivity. Qed.

Lemma mapM_all_raise {A B} (f : A -> result B) (e : exn) (l : list A) :
  l <> [] -> (forall x, In x l -> f x = Raise e) -> mapM f l = Raise e.
Proof.
  destruct l as [|x l]; [congruence|]. intros _ H. simpl.
  now rewrite (H x (or_introl eq_refl)).
Qed.

Lemma bare_string_aux (v : string) (today : date) :
  v <> EmptyString ->
  exists l,
    load_streak_dates (Json (JDict {[ "logged_dates"%string := JStr v ]})) = Ok l
    /\ l <> []
    /\ (forall h, In h l <->
          exists c, h = HStr (String c EmptyString) /\ In c (list_ascii_of_string v))
    /\ calculate_longest_streak l = Raise ValueError
    /\ calculate_current_streak (Json (JDict {[ "logged_dates"%string := JStr v ]})) today
       = Raise ValueError.
Proof.
  intros Hv.
  set (chars := List.map (fun c => HStr (String c EmptyString)) (list_ascii_of_string v)).
  destruct (py_sorted_total py_lt is_str (py_set py_eq chars)) as [l Hl].
  - apply py_lt_str.
  - apply List.Forall_forall. intros h Hh. apply py_set_incl in Hh.
    apply in_map_iff in Hh as (c & <- & _). now eexists.
  - assert (Hload : load_streak_dates (Json (JDict {[ "logged_dates"%string := JStr v ]}))
                    = Ok l).
    { unfold load_streak_dates. cbn [path_exists negb json_load bind py_get].
      rewrite lookup_singleton_eq. cbn [set_of_json bind]. fold chars. now rewrite Hl. }
    assert (Hmem : forall h, In h l <->
              exists c, h = HStr (String c EmptyString) /\ In c (list_ascii_of_string v)).
    { intros h. pose proof (py_sorted_perm _ _ _ Hl) as Hp. split.
      - intros Hh. apply (Permutation_in _ (Permutation_sym Hp)) in Hh.
        apply py_set_incl in Hh. apply in_map_iff in Hh as (c & <- & Hc). eauto.
      - intros (c & -> & Hc). eapply Permutation_in; [exact Hp|].
        assert (Hk : In (key_of (HStr (String c EmptyString)))
                       (List.map key_of (py_set py_eq chars))).
        { apply (py_set_keys py_eq key_of py_eq_key). apply in_map. unfold chars.
          apply in_map_iff. eauto. }
        apply in_map_iff in Hk as (h' & Hk & Hin).
        destruct h' as [|b|n|t]; try discriminate Hk.
        injection Hk as ->. exact Hin. }
    assert (Hne : l <> []).
    { destruct v as [|c v']; [congruence|]. intros ->.
      apply (proj2 (Hmem (HStr (String c EmptyString)))). exists c. split; [reflexivity|].
      now left. }
    assert (Hmap : mapM strptime l = Raise ValueError).
    { apply mapM_all_raise; [assumption|]. intros h Hh.
      apply Hmem in Hh as (c & -> & _). apply one_char_strptime. }
    exists l. repeat split; try assumption; try apply Hmem.
    + unfold calculate_longest_streak. destruct l; [congruence|]. now rewrite Hmap.
    + unfold calculate_current_streak. rewrite Hload. cbn [bind].
      destruct l; [congruence|]. now rewrite Hmap.
Qed.

Lemma panel_logged_positive_aux (y m d : Z) (s : store) (c l : Z) :
  valid_ymd y m d -> 1000 <= y <= 9999 ->
  streak_panel (ymd2ord y m d) y m d s = Ok (c, l, true) -> 1 <= c <= l.
Proof.
  intros Hv Hy H. unfold streak_panel in H.
  apply bind_Ok in H as ([c' l'] & Hcur & H).
  apply bind_Ok in H as (lg & Hload & H).
  injection H as -> -> Hin. apply py_in_str in Hin.
  destruct (strptime_strftime y m d Hv Hy) as [Hp _].
  assert (Hds : exists ds, logged_dates s = Ok ds).
  { unfold logged_dates. rewrite Hload. cbn [bind].
    unfold calculate_current_streak in Hcur. rewrite Hload in Hcur. cbn [bind] in Hcur.
    destruct lg as [|h lg]; [destruct Hin|].
    destruct (mapM strptime (h :: lg)) as [ds|e]; [eauto | discriminate Hcur]. }
  destruct Hds as [ds Hds].
  assert (Htoday : In (ymd2ord y m d) ds).
  { unfold logged_dates in Hds. rewrite Hload in Hds. cbn [bind] in Hds.
    apply (proj2 (mapM_In _ _ _ Hds (ymd2ord y m d))). eauto. }
  destruct (current_streak_inv _ _ _ _ _ Hds Hcur) as [H0 Hz].
  pose proof (current_streak_bounded _ _ _ _ Hcur) as Hle.
  assert (c <> 0) by (intros E; apply Hz in E; tauto). lia.
Qed.

(** *** The dates that the streak functions work with *)

(** X6.  Every date that the streak functions parse out of the log is a
    day of a month of a year between 1 and 9999, and lies between
    [date.min] and [date.max]. *)
Theorem parsed_dates_in_calendar (dates_str : list hashable) (ds : list date) (a : date) :
  mapM strptime dates_str = Ok ds -> In a ds ->
  date_min <= a <= date_max
  /\ exists y m d, valid_ymd y m d /\ y <= 9999 /\ a = ymd2ord y m d.
Proof.
  intros Hmap Hin. apply (mapM_In _ _ _ Hmap) in Hin as (h & _ & Hh).
  destruct h as [|b|n|s]; try discriminate Hh.
  apply strptime_ymd_inv in Hh as (y & m & d & Hv & Hy & Ha & Hr).
  split; [exact Hr | eauto 6].
Qed.

Lemma parsed_dates_in_calendar_witness :
  date_min <= 738890 <= date_max
  /\ exists y m d, valid_ymd y m d /\ y <= 9999 /\ 738890 = ymd2ord y m d.
Proof.
  apply (parsed_dates_in_calendar [HStr "2024-01-05"] [738890] 738890).
  - reflexivity.
  - now left.
Defined.

(** X7.  The string that [log_action] writes for the clock's date (years
    1000 to 9999) is in the ISO form and is parsed back by the streak
    functions as that very date. *)
Theorem today_str_round_trip (y m d : Z) :
  valid_ymd y m d -> 1000 <= y <= 9999 ->
  strptime (HStr (strftime_ymd y m d)) = Ok (ymd2ord y m d)
  /\ is_iso (HStr (strftime_ymd y m d)).
Proof.
  intros Hv Hy. destruct (strptime_strftime y m d Hv Hy) as [Hp Hiso].
  split; [exact Hp | now exists (strftime_ymd y m d)].
Qed.

Lemma today_str_round_trip_witness :
  strptime (HStr (strftime_ymd 2024 2 29)) = Ok (ymd2ord 2024 2 29)
  /\ is_iso (HStr (strftime_ymd 2024 2 29)).
Proof.
  apply today_str_round_trip.
  - unfold valid_ymd. simpl. lia.
  - lia.
Defined.

(** *** The longest streak *)

(** X8.  [calculate_longest_streak] depends only on the set of dates: two
    lists of date strings that name the same dates, in any order, with any
    repetitions and in any accepted spelling, have the same longest
    streak. *)
Theorem longest_streak_same_dates (l1 l2 : list hashable) (ds1 ds2 : list date) :
  mapM strptime l1 = Ok ds1 -> mapM strptime l2 = Ok ds2 ->
  (forall x, In x ds1 <-> In x ds2) ->
  calculate_longest_streak l1 = calculate_longest_streak l2.
Proof. apply longest_streak_same_set. Qed.

Lemma longest_streak_same_dates_witness :
  calculate_longest_streak [HStr "2024-01-02"; HStr "2024-01-01"]
  = calculate_longest_streak [HStr "2024-1-1"; HStr "2024-01-02"; HStr "2024-01-01"].
Proof.
  apply (longest_streak_same_dates _ _ [738887; 738886] [738886; 738887; 738886]).
  - reflexivity.
  - reflexivity.
  - intros x. simpl. tauto.
Defined.

(** X9.  Logging more dates never shortens the longest streak: when every
    date of one list is a date of the other, both calls return and the
    first result is at most the second. *)
Theorem longest_streak_monotone (l1 l2 : list hashable) (ds1 ds2 : list date) :
  mapM strptime l1 = Ok ds1 -> mapM strptime l2 = Ok ds2 ->
  (forall x, In x ds1 -> In x ds2) ->
  exists n1 n2, calculate_longest_streak l1 = Ok n1
                /\ calculate_longest_streak l2 = Ok n2 /\ n1 <= n2.
Proof. apply longest_streak_set. Qed.

Lemma longest_streak_monotone_witness :
  exists n1 n2,
    calculate_longest_streak [HStr "2024-01-01"; HStr "2024-01-03"] = Ok n1
    /\ calculate_longest_streak [HStr "2024-01-01"; HStr "2024-01-02"; HStr "2024-01-03"]
       = Ok n2
    /\ n1 <= n2.
Proof.
  apply (longest_streak_monotone _ _ [738886; 738888] [738886; 738887; 738888]).
  - reflexivity.
  - reflexivity.
  - intros x. simpl. tauto.
Defined.

(** X10.  For a non-empty list of date strings the longest streak is at
    least 1 and at most the number of entries. *)
Theorem longest_streak_range (l : list hashable) (ds : list date) :
  mapM strptime l = Ok ds -> l <> [] ->
  exists n, calculate_longest_streak l = Ok n /\ 1 <= n <= Z.of_nat (List.length l).
Proof. apply longest_streak_bounds. Qed.

Lemma longest_streak_range_witness :
  exists n,
    calculate_longest_streak [HStr "2024-01-01"; HStr "2024-01-03"] = Ok n
    /\ 1 <= n <= Z.of_nat (List.length [HStr "2024-01-01"; HStr "2024-01-03"]).
Proof.
  apply (longest_streak_range _ [738886; 738888]).
  - reflexivity.
  - discriminate.
Defined.

(** X11.  One entry of the log that is not a date string is enough for
    both streak functions to fail: [calculate_longest_streak] and
    [calculate_current_streak] raise a [ValueError] or a [TypeError],
    whatever the other entries and whatever today's date. *)
Theorem malformed_entry_raises (s : store) (today : date) (l : list hashable)
    (h : hashable) (e : exn) :
  load_streak_dates s = Ok l -> In h l -> strptime h = Raise e ->
  (exists e', calculate_longest_streak l = Raise e'
              /\ (e' = ValueError \/ e' = TypeError))
  /\ (exists e', calculate_current_streak s today = Raise e'
                 /\ (e' = ValueError \/ e' = TypeError)).
Proof.
  intros Hload Hin Hraise. split.
  - exact (bad_entry_raises l h e Hin Hraise).
  - exact (bad_entry_raises_current s today l h e Hload Hin Hraise).
Qed.

Lemma malformed_entry_raises_witness :
  (exists e', calculate_longest_streak [HStr "2024-01-05"; HStr "yesterday"] = Raise e'
              /\ (e' = ValueError \/ e' = TypeError))
  /\ (exists e',
        calculate_current_streak (store_of ["yesterday"; "2024-01-05"]%string) 738890
        = Raise e'
        /\ (e' = ValueError \/ e' = TypeError)).
Proof.
  apply (malformed_entry_raises (store_of ["yesterday"; "2024-01-05"]%string) 738890
           [HStr "2024-01-05"; HStr "yesterday"] (HStr "yesterday") ValueError).
  - reflexivity.
  - simpl. auto.
  - reflexivity.
Defined.

(** *** The current streak *)

(** X12.  Whenever [calculate_current_streak] returns, the current streak
    is not negative, and it is 0 exactly when neither today nor yesterday
    is among the logged dates. *)
Theorem current_streak_zero_iff (s : store) (today : date) (ds : list date) (c l : Z) :
  logged_dates s = Ok ds ->
  calculate_current_streak s today = Ok (c, l) ->
  0 <= c /\ (c = 0 <-> ~ In today ds /\ ~ In (today - 1) ds).
Proof. apply current_streak_inv. Qed.

Lemma current_streak_zero_iff_witness :
  0 <= 1 /\ (1 = 0 <-> ~ In 738890 [738889] /\ ~ In (738890 - 1) [738889]).
Proof.
  apply (current_streak_zero_iff (store_of ["2024-01-04"]%string) 738890 [738889] 1 1).
  - reflexivity.
  - reflexivity.
Defined.

(** X13.  Logging today's action when today is not yet logged (and the
    log reads as dates): [log_action] succeeds, the current streak grows
    by exactly one, the longest streak does not shrink, and the page then
    shows today as logged (clock reads on the same day). *)
Theorem log_action_grows_streak (y m d : Z) (s : store) (ds : list date) (c l : Z) :
  valid_ymd y m d -> 1000 <= y <= 9999 ->
  logged_dates s = Ok ds -> ~ In (ymd2ord y m d) ds ->
  calculate_current_streak s (ymd2ord y m d) = Ok (c, l) ->
  exists l',
    snd (log_action y m d s) = Ok tt
    /\ calculate_current_streak (fst (log_action y m d s)) (ymd2ord y m d)
       = Ok (c + 1, l')
    /\ l <= l'
    /\ streak_panel (ymd2ord y m d) y m d (fst (log_action y m d s))
       = Ok (c + 1, l', true).
Proof. apply log_action_extends. Qed.

Lemma log_action_grows_streak_witness :
  exists l',
    snd (log_action 2024 1 5 (store_of ["2024-01-04"]%string)) = Ok tt
    /\ calculate_current_streak
         (fst (log_action 2024 1 5 (store_of ["2024-01-04"]%string))) (ymd2ord 2024 1 5)
       = Ok (1 + 1, l')
    /\ 1 <= l'
    /\ streak_panel (ymd2ord 2024 1 5) 2024 1 5
         (fst (log_action 2024 1 5 (store_of ["2024-01-04"]%string)))
       = Ok (1 + 1, l', true).
Proof.
  apply (log_action_grows_streak 2024 1 5 (store_of ["2024-01-04"]%string) [738889] 1 1).
  - unfold valid_ymd. simpl. lia.
  - lia.
  - reflexivity.
  - simpl. intros [H|[]]. discriminate H.
  - reflexivity.
Defined.

(** X14.  The first action: on a log that loads as empty the page shows
    streaks 0 and 0 and today as not logged; [log_action] then succeeds
    and writes a record with today's string alone, on which the page shows
    streaks 1 and 1 and today as logged. *)
Theorem first_log (y m d : Z) (s : store) :
  valid_ymd y m d -> 1000 <= y <= 9999 ->
  load_streak_dates s = Ok [] ->
  streak_panel (ymd2ord y m d) y m d s = Ok (0, 0, false)
  /\ log_action y m d s = (store_of [strftime_ymd y m d], Ok tt)
  /\ streak_panel (ymd2ord y m d) y m d (store_of [strftime_ymd y m d]) = Ok (1, 1, true).
Proof. apply first_log_aux. Qed.

Lemma first_log_witness :
  streak_panel (ymd2ord 2024 1 5) 2024 1 5 Missing = Ok (0, 0, false)
  /\ log_action 2024 1 5 Missing = (store_of [strftime_ymd 2024 1 5], Ok tt)
  /\ streak_panel (ymd2ord 2024 1 5) 2024 1 5 (store_of [strftime_ymd 2024 1 5])
     = Ok (1, 1, true).
Proof.
  apply first_log.
  - unfold valid_ymd. simpl. lia.
  - lia.
  - reflexivity.
Defined.

(** X15.  When the page shows today as logged, the current streak it
    shows is at least 1 and at most the longest streak (clock reads on the
    same day). *)
Theorem panel_logged_positive (y m d : Z) (s : store) (c l : Z) :
  valid_ymd y m d -> 1000 <= y <= 9999 ->
  streak_panel (ymd2ord y m d) y m d s = Ok (c, l, true) -> 1 <= c <= l.
Proof. apply panel_logged_positive_aux. Qed.

Lemma panel_logged_positive_witness : 1 <= 2 <= 2.
Proof.
  apply (panel_logged_positive 2024 1 5 (store_of ["2024-01-04"; "2024-01-05"]%string)).
  - unfold valid_ymd. simpl. lia.
  - lia.
  - reflexivity.
Defined.

(** *** Writing the log *)

(** X16.  The outcomes of [save_new_log]: a failed call leaves the file
    as it was; a successful call leaves a file that loads as the old
    entries and the new string; and the call fails exactly when the file
    does not load, or the string is new and some loaded entry is not a
    string. *)
Theorem save_new_log_outcome (t : string) (s : store) :
  (forall e, snd (save_new_log t s) = Raise e -> fst (save_new_log t s) = s)
  /\ (snd (save_new_log t s) = Ok tt ->
      exists old new,
        load_streak_dates s = Ok old
        /\ load_streak_dates (fst (save_new_log t s)) = Ok new
        /\ forall h, In h new <-> h = HStr t \/ In h old)
  /\ ((exists e, snd (save_new_log t s) = Raise e) <->
      (exists e, load_streak_dates s = Raise e)
      \/ (exists old h, load_streak_dates s = Ok old /\ ~ In (HStr t) old
                        /\ In h old /\ ~ is_str h)).
Proof. apply save_new_log_outcome_aux. Qed.

(** X17.  On a log of strings two calls of [save_new_log] commute: the
    file is the same whichever of the two dates is saved first. *)
Theorem save_new_log_commutes (d1 d2 : string) (s : store) (dates : list hashable) :
  load_streak_dates s = Ok dates -> Forall is_str dates ->
  persist d1 (persist d2 s) = persist d2 (persist d1 s).
Proof. apply save_new_log_commutes_aux. Qed.

Lemma save_new_log_commutes_witness :
  persist "2024-01-05" (persist "2024-01-03" (store_of ["2024-01-04"]%string))
  = persist "2024-01-03" (persist "2024-01-05" (store_of ["2024-01-04"]%string)).
Proof.
  apply (save_new_log_commutes _ _ _ [HStr "2024-01-04"]).
  - reflexivity.
  - repeat constructor. now exists "2024-01-04"%string.
Defined.

(** *** Reading the log *)

(** X18.  A record whose ["logged_dates"] is a non-empty string instead
    of a list loads without error, as the distinct characters of the
    string; both streak functions then raise a [ValueError]. *)
Theorem bare_string_log (v : string) (today : date) :
  v <> EmptyString ->
  exists l,
    load_streak_dates (Json (JDict {[ "logged_dates"%string := JStr v ]})) = Ok l
    /\ l <> []
    /\ (forall h, In h l <->
          exists c, h = HStr (String c EmptyString) /\ In c (list_ascii_of_string v))
    /\ calculate_longest_streak l = Raise ValueError
    /\ calculate_current_streak (Json (JDict {[ "logged_dates"%string := JStr v ]})) today
       = Raise ValueError.
Proof. apply bare_string_aux. Qed.

Lemma bare_string_log_witness :
  exists l,
    load_streak_dates (Json (JDict {[ "logged_dates"%string := JStr "2024-01-05" ]})) = Ok l
    /\ l <> []
    /\ (forall h, In h l <->
          exists c, h = HStr (String c EmptyString)
                    /\ In c (list_ascii_of_string "2024-01-05"))
    /\ calculate_longest_streak l = Raise ValueError
    /\ calculate_current_streak
         (Json (JDict {[ "logged_dates"%string := JStr "2024-01-05" ]})) 738890
       = Raise ValueError.
Proof. apply bare_string_log. discriminate. Defined.

Lemma py_set_str (l : list hashable) (h : hashable) :
  Forall is_str l -> In h (py_set py_eq l) <-> In h l.
Proof.
  intros Hstr. split; [apply py_set_incl|]. intros Hin.
  rewrite List.Forall_forall in Hstr. destruct (Hstr h Hin) as [x ->].
  assert (Hk : In (key_of (HStr x)) (List.map key_of (py_set py_eq l))).
  { apply (py_set_keys py_eq key_of py_eq_key). now apply in_map. }
  apply in_map_iff in Hk as (h' & Hk & Hin').
  destruct h' as [|b|n|t]; try discriminate Hk.
  injection Hk as ->. exact Hin'.
Qed.

Lemma load_store_of_members (dates_str : list string) :
  exists l, load_streak_dates (store_of dates_str) = Ok l
            /\ py_ascending l
            /\ forall h, In h l <-> exists x, h = HStr x /\ In x dates_str.
Proof.
  assert (Hstr : Forall is_str (List.map HStr dates_str)).
  { apply List.Forall_forall. intros h Hh. apply in_map_iff in Hh as (x & <- & _).
    now exists x. }
  destruct (py_sorted_total py_lt is_str (py_set py_eq (List.map HStr dates_str)))
    as [l Hl].
  - apply py_lt_str.
  - apply List.Forall_forall. intros h Hh. apply py_set_incl in Hh.
    rewrite List.Forall_forall in Hstr. auto.
  - exists l. rewrite load_store_of. split; [exact Hl|]. split.
    + assert (Hload : load_streak_dates (store_of dates_str) = Ok l)
        by (now rewrite load_store_of).
      now destruct (load_streak_dates_Ok _ _ Hload).
    + intros h. pose proof (py_sorted_perm _ _ _ Hl) as Hp. split.
      * intros Hh. apply (Permutation_in _ (Permutation_sym Hp)) in Hh.
        apply py_set_incl in Hh. apply in_map_iff in Hh as (x & <- & Hx). eauto.
      * intros (x & -> & Hx). eapply Permutation_in; [exact Hp|].
        apply py_set_str; [exact Hstr | now apply in_map].
Qed.

(** X19.  The loaded list is determined by the stored date strings: two
    records that list the same strings, in whatever order and with
    whatever repetitions, load as one and the same list, which holds
    exactly those strings. *)
Theorem load_streak_dates_canonical (d1 d2 : list string) :
  (forall x, In x d1 <-> In x d2) ->
  exists l,
    load_streak_dates (store_of d1) = Ok l
    /\ load_streak_dates (store_of d2) = Ok l
    /\ forall h, In h l <-> exists x, h = HStr x /\ In x d1.
Proof.
  intros Hsame.
  destruct (load_store_of_members d1) as (l1 & H1 & Ha1 & Hm1).
  destruct (load_store_of_members d2) as (l2 & H2 & Ha2 & Hm2).
  assert (l1 = l2) as <-.
  { apply py_ascending_unique; try assumption. intros h. rewrite Hm1, Hm2.
    split; intros (x & -> & Hx); exists x; (split; [reflexivity | now apply Hsame]). }
  exists l1. auto.
Qed.

Lemma load_streak_dates_canonical_witness :
  exists l,
    load_streak_dates (store_of ["2024-01-02"; "2024-01-01"]%string) = Ok l
    /\ load_streak_dates (store_of ["2024-01-01"; "2024-01-02"; "2024-01-01"]%string)
       = Ok l
    /\ forall h, In h l <->
         exists x, h = HStr x /\ In x ["2024-01-02"; "2024-01-01"]%string.
Proof.
  apply load_streak_dates_canonical. intros x. simpl. tauto.
Defined.

End AppFacts.

(* ===================================================================== *)
(** ** Properties of the background image                                 *)
(* ===================================================================== *)

Module StyleFacts.
Import Streak Style.

#[local] Open Scope N_scope.

(** *** The base64 text *)

Lemma b64_char_is_b64 (i : N) : is_b64 (b64_char i) = true.
Proof.
  unfold b64_char.
  destruct (N.ltb_spec i 26); [|destruct (N.ltb_spec i 52); [|destruct (N.ltb_spec i 62);
    [|destruct (i =? 62); reflexivity]]];
    unfold is_b64; rewrite N_ascii_embedding by lia;
    rewrite ?orb_true_iff, ?andb_true_iff, ?N.leb_le, ?N.eqb_eq; lia.
Qed.

Lemma b64encode_alphabet (bs : list ascii) : Forall (fun c => is_b64 c = true) (b64encode bs).
Proof.
  assert (H : forall n (l : list ascii), (List.length l <= n)%nat ->
                Forall (fun c => is_b64 c = true) (b64encode l)).
  { induction n as [|n IH]; intros l Hl.
    - destruct l; [constructor | simpl in Hl; lia].
    - destruct l as [|a [|b [|c rest]]]; simpl;
        repeat (constructor; [apply b64_char_is_b64 || reflexivity|]);
        try constructor.
      apply IH. simpl in Hl. lia. }
  apply (H (List.length bs)). lia.
Qed.

Lemma b64encode_length (bs : list ascii) :
  List.length (b64encode bs) = (4 * ((List.length bs + 2) / 3))%nat.
Proof.
  assert (H : forall n (l : list ascii), (List.length l <= n)%nat ->
                List.length (b64encode l) = (4 * ((List.length l + 2) / 3))%nat).
  { induction n as [|n IH]; intros l Hl.
    - destruct l; [reflexivity | simpl in Hl; lia].
    - destruct l as [|a [|b [|c rest]]]; try reflexivity.
      cbn [b64encode List.length]. rewrite IH by (simpl in Hl; lia).
      replace (S (S (S (List.length rest))) + 2)%nat with (List.length rest + 2 + 1 * 3)%nat by lia.
      rewrite Nat.div_add by lia. lia. }
  apply (H (List.length bs)). lia.
Qed.

Lemma b64_index_char (i : N) : i < 64 -> b64_index (b64_char i) = i.
Proof.
  intros Hi. unfold b64_char.
  destruct (N.ltb_spec i 26); [|destruct (N.ltb_spec i 52); [|destruct (N.ltb_spec i 62);
    [|destruct (N.eqb_spec i 62)]]]; unfold b64_index;
    try rewrite N_ascii_embedding by lia.
  - replace ((65 <=? 65 + i) && (65 + i <=? 90)) with true; [lia|].
    symmetry. rewrite andb_true_iff, !N.leb_le. lia.
  - replace ((65 <=? 97 + (i - 26)) && (97 + (i - 26) <=? 90)) with false
      by (symmetry; rewrite andb_false_iff, !N.leb_gt; lia).
    replace ((97 <=? 97 + (i - 26)) && (97 + (i - 26) <=? 122)) with true; [lia|].
    symmetry. rewrite andb_true_iff, !N.leb_le. lia.
  - replace ((65 <=? 48 + (i - 52)) && (48 + (i - 52) <=? 90)) with false
      by (symmetry; rewrite andb_false_iff, !N.leb_gt; lia).
    replace ((97 <=? 48 + (i - 52)) && (48 + (i - 52) <=? 122)) with false
      by (symmetry; rewrite andb_false_iff, !N.leb_gt; lia).
    replace ((48 <=? 48 + (i - 52)) && (48 + (i - 52) <=? 57)) with true; [lia|].
    symmetry. rewrite andb_true_iff, !N.leb_le. lia.
  - subst. reflexivity.
  - assert (i = 63) as -> by lia. reflexivity.
Qed.

Lemma b64_char_inj (i j : N) : i < 64 -> j < 64 -> b64_char i = b64_char j -> i = j.
Proof.
  intros Hi Hj E. rewrite <- (b64_index_char i Hi), <- (b64_index_char j Hj). now rewrite E.
Qed.

Lemma b64_char_not_pad (i : N) : b64_char i <> "="%char.
Proof.
  intros E. apply (f_equal N_of_ascii) in E. unfold b64_char in E.
  destruct (N.ltb_spec i 26); [|destruct (N.ltb_spec i 52); [|destruct (N.ltb_spec i 62);
    [|destruct (i =? 62); discriminate E]]];
    rewrite N_ascii_embedding in E by lia; change (N_of_ascii "=") with 61 in E; lia.
Qed.

Lemma N_of_ascii_inj (a b : ascii) : N_of_ascii a = N_of_ascii b -> a = b.
Proof.
  intros H. rewrite <- (ascii_N_embedding a), <- (ascii_N_embedding b). now rewrite H.
Qed.

Lemma sextets_sum (n : N) :
  n = (n / 262144) * 262144 + (n / 4096 mod 64) * 4096 + (n / 64 mod 64) * 64 + n mod 64.
Proof.
  pose proof (N.div_mod n 64 ltac:(lia)) as H1.
  pose proof (N.div_mod (n / 64) 64 ltac:(lia)) as H2.
  pose proof (N.div_mod (n / 64 / 64) 64 ltac:(lia)) as H3.
  rewrite !N.Div0.div_div in H2, H3. rewrite ?N.Div0.div_div in H3.
  change (64 * 64) with 4096 in *. change (4096 * 64) with 262144 in *.
  remember (n / 262144) as q3. remember (n / 4096) as q2. remember (n / 64) as q1.
  remember (q2 mod 64) as r2. remember (q1 mod 64) as r1. remember (n mod 64) as r0.
  remember (q3 mod 64) as r3. clear - H1 H2 H3. lia.
Qed.

Lemma sextets_inj (n m : N) :
  n / 262144 = m / 262144 -> n / 4096 mod 64 = m / 4096 mod 64 ->
  n / 64 mod 64 = m / 64 mod 64 -> n mod 64 = m mod 64 -> n = m.
Proof.
  intros H3 H2 H1 H0. rewrite (sextets_sum n), (sextets_sum m). congruence.
Qed.

Lemma sextet_lt (n k : N) : n / k mod 64 < 64.
Proof. apply N.mod_lt. lia. Qed.

Lemma top_sextet_lt (n : N) : n < 16777216 -> n / 262144 < 64.
Proof. intros H. apply N.Div0.div_lt_upper_bound; lia. Qed.

Lemma one_byte_low (a : N) : (a * 65536) mod 64 = 0 /\ (a * 65536) / 64 mod 64 = 0.
Proof.
  replace (a * 65536) with (a * 1024 * 64) by lia.
  rewrite N.Div0.mod_mul, N.div_mul by lia.
  replace (a * 1024) with (a * 16 * 64) by lia. now rewrite N.Div0.mod_mul.
Qed.

Lemma two_bytes_low (a b : N) : (a * 65536 + b * 256) mod 64 = 0.
Proof.
  replace (a * 65536 + b * 256) with ((a * 1024 + b * 4) * 64) by lia.
  now rewrite N.Div0.mod_mul.
Qed.

Lemma b64encode_inj (l1 l2 : list ascii) : b64encode l1 = b64encode l2 -> l1 = l2.
Proof.
  assert (H : forall n (l1 l2 : list ascii), (List.length l1 <= n)%nat ->
                b64encode l1 = b64encode l2 -> l1 = l2).
  { induction n as [|n IH]; intros k1 k2 Hlen E.
    - destruct k1; [|simpl in Hlen; lia].
      destruct k2 as [|a [|b [|c rest]]]; [reflexivity| | |]; discriminate E.
    - destruct k1 as [|a1 [|b1 [|c1 r1]]], k2 as [|a2 [|b2 [|c2 r2]]];
        try reflexivity; try discriminate E; cbn [b64encode] in E; cbv zeta in E;
        injection E; intros;
        try match goal with
            | H : b64_char _ = "="%char |- _ => now destruct (b64_char_not_pad _ H)
            | H : "="%char = b64_char _ |- _ =>
                symmetry in H; now destruct (b64_char_not_pad _ H)
            end;
        pose proof (N_ascii_bounded a1); pose proof (N_ascii_bounded a2);
        try pose proof (N_ascii_bounded b1); try pose proof (N_ascii_bounded b2);
        try pose proof (N_ascii_bounded c1); try pose proof (N_ascii_bounded c2);
        repeat match goal with
               | H : b64_char _ = b64_char _ |- _ =>
                   apply b64_char_inj in H;
                   [|first [apply sextet_lt | apply top_sextet_lt; lia
                           | apply N.mod_lt; lia]
                    |first [apply sextet_lt | apply top_sextet_lt; lia
                           | apply N.mod_lt; lia]]
               end.
      + assert (En : N_of_ascii a1 * 65536 = N_of_ascii a2 * 65536).
        { apply sextets_inj; try assumption.
          - now rewrite (proj2 (one_byte_low _)), (proj2 (one_byte_low _)).
          - now rewrite (proj1 (one_byte_low _)), (proj1 (one_byte_low _)). }
        f_equal. apply N_of_ascii_inj. lia.
      + assert (En : N_of_ascii a1 * 65536 + N_of_ascii b1 * 256
                     = N_of_ascii a2 * 65536 + N_of_ascii b2 * 256).
        { apply sextets_inj; try assumption. now rewrite !two_bytes_low. }
        assert (N_of_ascii a1 = N_of_ascii a2 /\ N_of_ascii b1 = N_of_ascii b2)
          as [Ea Eb] by lia.
        apply N_of_ascii_inj in Ea, Eb. now subst.
      + assert (En : N_of_ascii a1 * 65536 + N_of_ascii b1 * 256 + N_of_ascii c1
                     = N_of_ascii a2 * 65536 + N_of_ascii b2 * 256 + N_of_ascii c2).
        { apply sextets_inj; assumption. }
        assert (N_of_ascii a1 = N_of_ascii a2 /\ N_of_ascii b1 = N_of_ascii b2
                /\ N_of_ascii c1 = N_of_ascii c2)
          as (Ea & Eb & Ec) by lia.
        apply N_of_ascii_inj in Ea, Eb, Ec. subst. do 3 f_equal.
        apply IH; [simpl in Hlen; lia | assumption]. }
  apply (H (List.length l1)). lia.
Qed.

Lemma string_of_list_ascii_inj (l1 l2 : list ascii) :
  string_of_list_ascii l1 = string_of_list_ascii l2 -> l1 = l2.
Proof.
  intros H. rewrite <- (list_ascii_of_string_of_list_ascii l1),
    <- (list_ascii_of_string_of_list_ascii l2). now rewrite H.
Qed.

Lemma string_length_list (l : list ascii) :
  String.length (string_of_list_ascii l) = List.length l.
Proof. induction l as [|c l IH]; simpl; [reflexivity | now rewrite IH]. Qed.

Lemma b64encode_nil (bs : list ascii) : b64encode bs = [] -> bs = [].
Proof. destruct bs as [|a [|b [|c rest]]]; [reflexivity| | |]; discriminate. Qed.

(** *** [get_base64_image] *)

(** X20.  [get_base64_image] never raises; it returns [None] exactly when
    the file is missing, and the text it returns determines the bytes of
    the file: two files with the same result are the same. *)
Theorem get_base64_image_faithful :
  (forall f, exists r, get_base64_image f = Ok r /\ (r = None <-> f = NoImage))
  /\ (forall f g, get_base64_image f = get_base64_image g -> f = g).
Proof.
  split.
  - intros [|bytes]; eexists; (split; [reflexivity|]); split; congruence.
  - intros [|b1] [|b2] H; try reflexivity; try discriminate H.
    cbn in H. injection H as H. apply string_of_list_ascii_inj, b64encode_inj in H.
    now subst.
Qed.

(** X21.  For a file of [n] bytes the text has [4 * ceil(n / 3)]
    characters, each a letter, a digit, [+], [/] or [=]. *)
Theorem get_base64_image_text (bytes : list ascii) :
  exists t,
    get_base64_image (Image bytes) = Ok (Some t)
    /\ String.length t = (4 * ((List.length bytes + 2) / 3))%nat
    /\ Forall (fun c => is_b64 c = true) (list_ascii_of_string t).
Proof.
  eexists. split; [reflexivity|]. split.
  - rewrite string_length_list. apply b64encode_length.
  - rewrite list_ascii_of_string_of_list_ascii. apply b64encode_alphabet.
Qed.

(** *** The background of the page *)

(** X22.  [apply_custom_style] falls back to the plain background colour
    exactly when the image file is missing or empty; it never raises. *)
Theorem background_fallback (f : image_file) :
  (exists css, apply_custom_style_background f = Ok css)
  /\ (apply_custom_style_background f = Ok fallback_css
      <-> f = NoImage \/ f = Image []).
Proof.
  split.
  - destruct f; eexists; reflexivity.
  - destruct f as [|bytes]; [split; [auto | reflexivity]|].
    unfold apply_custom_style_background. cbn [get_base64_image read_image bind try_except].
    destruct (string_of_list_ascii (b64encode bytes)) as [|c rest] eqn:E.
    + split; [intros _ | reflexivity]. right. f_equal. apply b64encode_nil.
      apply string_of_list_ascii_inj. exact E.
    + split.
      * intros H. discriminate H.
      * intros [H|H]; [discriminate H|]. injection H as ->. discriminate E.
Qed.

End StyleFacts.
